(** * console-log-capture.js: a shallow embedding and its properties

    The module attaches three listeners (console, pageerror, response) to a
    Playwright page, turns every event into a message record, keeps the
    records with two running tallies and a set of already reported resource
    URLs, and renders the records as a report.

    JavaScript strings are modelled as byte strings ([string]); integers
    (epoch milliseconds, HTTP statuses, line numbers) as [Z]; the counters
    [errors] and [warnings] and array lengths as [nat]; the [Set] of reported
    URLs as a [gset string].  The platform the module runs on (the clock
    behind [Date.now()], the locale formatting of times, WHATWG URL parsing)
    is a record [Host]; everything the module itself computes is a function
    of this file. *)

From Stdlib Require Import ZArith String Ascii List Lia Bool DecimalString.
From stdpp Require Import gmap strings.

Open Scope Z_scope.

(* ================================================================== *)
(** ** JavaScript built-ins used by the module *)
(* ================================================================== *)

Module JS.

(** [s.length > 0], the truthiness of a string. *)
Definition nonempty (s : string) : bool :=
  match s with EmptyString => false | String _ _ => true end.

Fixpoint drop (n : nat) (s : string) : string :=
  match n, s with
  | O, _ => s
  | S n', String _ r => drop n' r
  | S _, EmptyString => EmptyString
  end.

Fixpoint take (n : nat) (s : string) : string :=
  match n, s with
  | S n', String c r => String c (take n' r)
  | _, _ => EmptyString
  end.

(** [s.slice(i, j)] for [0 <= i <= j]. *)
Definition slice (i j : nat) (s : string) : string :=
  take (j - i) (drop i s).

(** [s.startsWith(p)]. *)
Definition startsWith (p s : string) : bool := String.prefix p s.

(** [s.replace(pat, rep)] with a string pattern: only the first
    occurrence of [pat] is replaced, wherever it is.  The module only
    passes replacement texts without [$]. *)
Fixpoint replace (pat rep s : string) : string :=
  if String.prefix pat s then rep +:+ drop (String.length pat) s
  else match s with
       | EmptyString => EmptyString
       | String c r => String c (replace pat rep r)
       end.

(** [s.replace(/^\//, '')]. *)
Definition strip_leading_slash (s : string) : string :=
  match s with
  | String "/" r => r
  | _ => s
  end.

Fixpoint repeat (c : ascii) (n : nat) : string :=
  match n with
  | O => EmptyString
  | S n' => String c (repeat c n')
  end.

(** [s.padStart(width, c)] with a one-character filler. *)
Definition padStart (width : nat) (c : ascii) (s : string) : string :=
  repeat c (width - String.length s) +:+ s.

Definition is_lower (c : ascii) : bool :=
  (97 <=? nat_of_ascii c)%nat && (nat_of_ascii c <=? 122)%nat.

Definition is_upper (c : ascii) : bool :=
  (65 <=? nat_of_ascii c)%nat && (nat_of_ascii c <=? 90)%nat.

Definition upper_char (c : ascii) : ascii :=
  if is_lower c then ascii_of_nat (nat_of_ascii c - 32) else c.

Definition lower_char (c : ascii) : ascii :=
  if is_upper c then ascii_of_nat (nat_of_ascii c + 32) else c.

Fixpoint map_chars (f : ascii -> ascii) (s : string) : string :=
  match s with
  | EmptyString => EmptyString
  | String c r => String (f c) (map_chars f r)
  end.

(** [s.toUpperCase()] and [s.toLowerCase()] on the ASCII repertoire, the
    one [ConsoleMessage.type()] and the en-US time strings live in.  A
    letter outside ASCII is left as it is, which is not what JavaScript does
    with all of them (it turns U+0131, the dotless i, into [I]): what is
    said about the spelling of tags is said of ASCII tags. *)
Definition toUpperCase : string -> string := map_chars upper_char.
Definition toLowerCase : string -> string := map_chars lower_char.

Definition is_digit (c : ascii) : bool :=
  (48 <=? nat_of_ascii c)%nat && (nat_of_ascii c <=? 57)%nat.

Fixpoint all_digits (s : string) : bool :=
  match s with
  | EmptyString => true
  | String c r => is_digit c && all_digits r
  end.

(** [String(n)] for an integer [n]. *)
Definition show_int (n : Z) : string := NilZero.string_of_int (Z.to_int n).

(** The decimal digits of a natural number, no leading zero ("0" for 0). *)
Definition show_nat (n : nat) : string := NilZero.string_of_uint (Nat.to_uint n).

(** *** Numbers: IEEE-754 binary64 as far as the module needs it

    A finite double is [mant * 2 ^ expo].  The module only divides an
    integer number of milliseconds by 1000 and prints the quotient with
    [toFixed]; the magnitudes stay far from the subnormal and the overflow
    range, so neither is modelled. *)
Record double := Double { mant : Z; expo : Z }.

(** The pair [(num, den)] with [num / den = n / (d * 2 ^ e)]. *)
Definition scaled (n d e : Z) : Z * Z :=
  if e <? 0 then (n * 2 ^ (- e), d) else (n, d * 2 ^ e).

(** Round-to-nearest, ties-to-even, of the positive rational [n / d] to a
    53-bit mantissa. *)
Definition round_pos (n d : Z) : double :=
  let e0 := Z.log2 n - Z.log2 d - 53 in
  let '(n0, d0) := scaled n d e0 in
  let e := if n0 / d0 <? 2 ^ 53 then e0 else e0 + 1 in
  let '(num, den) := scaled n d e in
  let q := num / den in
  let r := num mod den in
  let m := if 2 * r <? den then q
           else if den <? 2 * r then q + 1
           else if Z.even q then q else q + 1 in
  Double m e.

(** [a / b] for two integers held exactly in doubles, [b > 0]. *)
Definition fdiv (a b : Z) : double :=
  if a =? 0 then Double 0 0
  else if 0 <? a then round_pos a b
  else let x := round_pos (- a) b in Double (- mant x) (expo x).

(** The integer [n] for which [n / 10 ^ f] is nearest to [|x|]; of two
    such integers the larger one (Number.prototype.toFixed, step 10.a). *)
Definition fixed_point (f : nat) (x : double) : Z :=
  let p := Z.abs (mant x) * 10 ^ Z.of_nat f in
  if 0 <=? expo x then p * 2 ^ expo x
  else let q := 2 ^ (- expo x) in
       if q <=? 2 * (p mod q) then p / q + 1 else p / q.

(** The digits of [n] split [f] places from the right, after padding with
    zeros to [f + 1] digits (toFixed, steps 10.b and 10.c). *)
Definition place_point (f : nat) (n : Z) : string :=
  let m := show_nat (Z.to_nat n) in
  let m' := repeat "0" (f + 1 - String.length m) +:+ m in
  let k := String.length m' in
  if (f =? 0)%nat then m'
  else take (k - f) m' +:+ "." +:+ drop (k - f) m'.

(** [x.toFixed(f)] for [|x| < 1e21]. *)
Definition toFixed (f : nat) (x : double) : string :=
  (if mant x <? 0 then "-" else "") +:+ place_point f (fixed_point f x).

(** *** Dates: [new Date(t).toISOString()]

    [t] is in milliseconds since the epoch; the calendar is the proleptic
    Gregorian one, in UTC. *)
Definition civil_from_days (days : Z) : Z * Z * Z :=
  let z := days + 719468 in
  let era := z / 146097 in
  let doe := z mod 146097 in
  let yoe := (doe - doe / 1460 + doe / 36524 - doe / 146096) / 365 in
  let doy := doe - (365 * yoe + yoe / 4 - yoe / 100) in
  let mp := (5 * doy + 2) / 153 in
  let d := doy - (153 * mp + 2) / 5 + 1 in
  let m := if mp <? 10 then mp + 3 else mp - 9 in
  let y := yoe + era * 400 + (if m <=? 2 then 1 else 0) in
  (y, m, d).

Definition digits (width : nat) (n : Z) : string :=
  padStart width "0" (show_nat (Z.to_nat n)).

Definition show_year (y : Z) : string :=
  if (0 <=? y) && (y <=? 9999) then digits 4 y
  else (if y <? 0 then "-" else "+") +:+ digits 6 (Z.abs y).

Definition toISOString (t : Z) : string :=
  let '(y, m, d) := civil_from_days (t / 86400000) in
  let ms := t mod 86400000 in
  show_year y +:+ "-" +:+ digits 2 m +:+ "-" +:+ digits 2 d +:+ "T" +:+
  digits 2 (ms / 3600000) +:+ ":" +:+ digits 2 (ms / 60000 mod 60) +:+ ":" +:+
  digits 2 (ms / 1000 mod 60) +:+ "." +:+ digits 3 (ms mod 1000) +:+ "Z".

End JS.

(* ================================================================== *)
(** ** Data model *)
(* ================================================================== *)

Definition TAB : string := String (ascii_of_nat 9) EmptyString.
Definition NL : string := String (ascii_of_nat 10) EmptyString.

Definition of_bytes (l : list nat) : string :=
  fold_right (fun n s => String (ascii_of_nat n) s) EmptyString l.

(** The glyph literals, byte for byte as the source file holds them. *)
Definition glyph_error : string := of_bytes [195; 162; 197; 146]%nat.
Definition glyph_warn : string :=
  of_bytes [195; 162; 197; 161; 194; 160; 195; 175; 194; 184]%nat.
Definition glyph_info : string :=
  of_bytes [195; 162; 226; 128; 158; 194; 185; 195; 175; 194; 184]%nat.
Definition glyph_started : string :=
  of_bytes [195; 176; 197; 184; 197; 189; 194; 172]%nat.

(** The three level strings ['ERROR'], ['WARN'], ['INFO']. *)
Inductive Level := ERROR | WARN | INFO.

Definition level_name (l : Level) : string :=
  match l with ERROR => "ERROR" | WARN => "WARN" | INFO => "INFO" end.

Definition level_eqb (a b : Level) : bool :=
  match a, b with
  | ERROR, ERROR | WARN, WARN | INFO, INFO => true
  | _, _ => false
  end.

(** The object [_logMessage] builds and pushes. *)
Record Message := {
  timestamp : string;
  level : Level;
  location : string;
  text : string;
  time : Z
}.

(** What reaches [_formatLocation] as [lineNum] and [colNum]: a number
    (from [msg.location()]), a run of digits captured by the stack-frame
    pattern, or nothing. *)
Inductive value := Undefined | Num (n : Z) | Str (s : string).

Definition truthy (v : value) : bool :=
  match v with
  | Undefined => false
  | Num n => negb (n =? 0)
  | Str s => JS.nonempty s
  end.

Fixpoint has_nonzero_digit (s : string) : bool :=
  match s with
  | EmptyString => false
  | String c r => negb (Ascii.eqb c "0") || has_nonzero_digit r
  end.

(** [v > 0].  A string is converted to a number first; for the digit runs
    the pattern captures that number is positive exactly when some digit is
    not 0.  Other spellings of numbers never reach this point. *)
Definition gt_zero (v : value) : bool :=
  match v with
  | Undefined => false
  | Num n => 0 <? n
  | Str s => JS.all_digits s && has_nonzero_digit s
  end.

(** [`${v}`]. *)
Definition show (v : value) : string :=
  match v with
  | Undefined => "undefined"
  | Num n => JS.show_int n
  | Str s => s
  end.

Definition show_bool (b : bool) : string := if b then "true" else "false".

(** The [options] object of the caller. *)
Module Options.

Record t := {
  baseUrl : option string;
  autoLog : option bool;
  verbose : option bool;
  saveToFile : option bool;
  filePrefix : option string
}.

(** [{}] *)
Definition empty : t := Build_t None None None None None.

(** [options.baseUrl = v] *)
Definition set_baseUrl (v : string) (o : t) : t :=
  Build_t (Some v) (autoLog o) (verbose o) (saveToFile o) (filePrefix o).

End Options.

(** The instance state of [class ConsoleCapture] ([page] apart). *)
Record ConsoleCapture := {
  baseUrl : string;
  autoLog : bool;
  verbose : bool;
  saveToFile : bool;
  filePrefix : string;
  startTime : Z;
  messages : list Message;
  errors : nat;
  warnings : nat;
  reportedErrors : gset string
}.

Definition set_messages (ms : list Message) (c : ConsoleCapture) : ConsoleCapture :=
  Build_ConsoleCapture (baseUrl c) (autoLog c) (verbose c) (saveToFile c)
    (filePrefix c) (startTime c) ms (errors c) (warnings c) (reportedErrors c).

Definition set_errors (n : nat) (c : ConsoleCapture) : ConsoleCapture :=
  Build_ConsoleCapture (baseUrl c) (autoLog c) (verbose c) (saveToFile c)
    (filePrefix c) (startTime c) (messages c) n (warnings c) (reportedErrors c).

Definition set_warnings (n : nat) (c : ConsoleCapture) : ConsoleCapture :=
  Build_ConsoleCapture (baseUrl c) (autoLog c) (verbose c) (saveToFile c)
    (filePrefix c) (startTime c) (messages c) (errors c) n (reportedErrors c).

Definition set_reportedErrors (s : gset string) (c : ConsoleCapture) : ConsoleCapture :=
  Build_ConsoleCapture (baseUrl c) (autoLog c) (verbose c) (saveToFile c)
    (filePrefix c) (startTime c) (messages c) (errors c) (warnings c) s.

(** The platform: successive readings of the clock ([Date.now()] and
    [new Date()]), [toLocaleTimeString('en-US', {hour: '2-digit',
    minute: '2-digit', hour12: true})] of an instant, and [new URL(u)]
    reduced to its [protocol] and [host] ([None] when it throws). *)
Record Host := {
  clock : nat -> Z;
  toLocaleTimeString : Z -> string;
  parseURL : string -> option (string * string)
}.

(** Everything a listener can read or write: the instance, the caller's
    [options] object (the [framenavigated] listener keeps a reference to
    it), whether the one-shot [framenavigated] listener is still
    registered, how many clock readings were taken, and what [console.log]
    printed. *)
Record World := {
  this : ConsoleCapture;
  options : Options.t;
  onceFramenavigated : bool;
  reads : nat;
  stdout : list string
}.

Definition set_this (c : ConsoleCapture) (w : World) : World :=
  Build_World c (options w) (onceFramenavigated w) (reads w) (stdout w).

(** Events the page emits. *)
Inductive Event :=
| Console (type : string) (url : option string) (lineNumber columnNumber : value)
          (msgText : string)
| PageError (stack : option string) (message : string)
| Response (url : string) (status : Z) (statusText : string)
| FrameNavigated (isMainFrame : bool) (url : string).

(** What [getSummary()] returns. *)
Module Summary.

Record t := {
  messages : nat;
  errors : nat;
  warnings : nat;
  elapsed : string
}.

End Summary.

(* ================================================================== *)
(** ** The stack-frame pattern [/at (.*?):(\d+):(\d+)/] *)
(* ================================================================== *)

(** The longest run of digits at the head of [s], and what follows it. *)
Fixpoint span_digits (s : string) : string * string :=
  match s with
  | String c r =>
      if JS.is_digit c then let '(d, rest) := span_digits r in (String c d, rest)
      else (EmptyString, s)
  | EmptyString => (EmptyString, EmptyString)
  end.

(** [:(\d+):(\d+)] at the head of [s].  A greedy digit run that is not
    followed by a colon cannot be shortened into one that is. *)
Definition match_line_col (s : string) : option (string * string) :=
  match s with
  | String ":" r =>
      let '(l, r1) := span_digits r in
      if JS.nonempty l then
        match r1 with
        | String ":" r2 =>
            let '(c, _) := span_digits r2 in
            if JS.nonempty c then Some (l, c) else None
        | _ => None
        end
      else None
  | _ => None
  end.

(** [.] matches anything but a line terminator: LF, CR, and U+2028,
    U+2029 (E2 80 A8 and E2 80 A9 in UTF-8). *)
Definition at_line_terminator (s : string) : bool :=
  String.prefix (of_bytes [10]%nat) s || String.prefix (of_bytes [13]%nat) s ||
  String.prefix (of_bytes [226; 128; 168]%nat) s ||
  String.prefix (of_bytes [226; 128; 169]%nat) s.

(** [(.*?):(\d+):(\d+)] at the head of [s]: the shortest first group. *)
Fixpoint match_lazy (s : string) : option (string * string * string) :=
  match match_line_col s with
  | Some (l, c) => Some (EmptyString, l, c)
  | None =>
      match s with
      | EmptyString => None
      | String ch r =>
          if at_line_terminator s then None
          else match match_lazy r with
               | Some (f, l, c) => Some (String ch f, l, c)
               | None => None
               end
      end
  end.

(** [s.match(/at (.*?):(\d+):(\d+)/)]: the leftmost match, as the three
    groups. *)
Fixpoint match_frame (s : string) : option (string * string * string) :=
  match s with
  | EmptyString => None
  | String _ r =>
      if String.prefix "at " s then
        match match_lazy (JS.drop 3 s) with
        | Some m => Some m
        | None => match_frame r
        end
      else match_frame r
  end.

(* ================================================================== *)
(** ** The methods of ConsoleCapture *)
(* ================================================================== *)

(** Code that reads the clock, prints, and updates the instance. *)
Definition M (A : Type) : Type := World -> A * World.

Definition ret {A : Type} (a : A) : M A := fun w => (a, w).

Definition bind {A B : Type} (m : M A) (k : A -> M B) : M B :=
  fun w => k (fst (m w)) (snd (m w)).

Declare Scope js_scope.
Delimit Scope js_scope with js.
Notation "'let*' x := m 'in' k" := (bind m (fun x => k))
  (at level 10, x name, m at level 100, k at level 200) : js_scope.
Notation "m ;; k" := (bind m (fun _ => k))
  (at level 100, k at level 200, right associativity) : js_scope.

Definition exec {A : Type} (m : M A) (w : World) : World := snd (m w).
Definition result {A : Type} (m : M A) (w : World) : A := fst (m w).

Definition get_this : M ConsoleCapture := fun w => (this w, w).

Definition update_this (f : ConsoleCapture -> ConsoleCapture) : M unit :=
  fun w => (tt, set_this (f (this w)) w).

(** [console.log(line)] *)
Definition console_log (line : string) : M unit :=
  fun w => (tt, Build_World (this w) (options w) (onceFramenavigated w) (reads w)
                  (stdout w ++ [line])).

(** [this.messages.sort((a, b) => a.time - b.time)]: the stable sort of
    ECMAScript 2019, by ascending [time]. *)
Fixpoint insert_by_time (m : Message) (l : list Message) : list Message :=
  match l with
  | [] => [m]
  | x :: r => if time m <=? time x then m :: l else x :: insert_by_time m r
  end.

Definition sort_by_time (l : list Message) : list Message :=
  fold_right insert_by_time [] l.

Section Methods.

Context (host : Host).

Open Scope js_scope.

(** [Date.now()], also the instant of [new Date()]. *)
Definition Date_now : M Z :=
  fun w => (clock host (reads w),
            Build_World (this w) (options w) (onceFramenavigated w) (S (reads w))
              (stdout w)).

(** The elapsed-time text of a clock reading: [((now - start) / 1000).toFixed(f)] *)
Definition elapsed_text (f : nat) (now start : Z) : string :=
  JS.toFixed f (JS.fdiv (now - start) 1000).

Definition _getTimestamp : M string :=
  let* now := Date_now in
  let* c := get_this in
  ret ("[" +:+ JS.padStart 5 "0" (elapsed_text 2 now (startTime c)) +:+ "]").

Definition _formatLocation (c : ConsoleCapture) (url : option string)
    (lineNum colNum : value) : string :=
  match url with
  | None => ""
  | Some u =>
      if negb (JS.nonempty u) then ""
      else
        let file := if JS.nonempty (baseUrl c)
                    then JS.strip_leading_slash (JS.replace (baseUrl c) "" u)
                    else u in
        if gt_zero lineNum then
          if truthy colNum then file +:+ ":" +:+ show lineNum +:+ ":" +:+ show colNum
          else file +:+ ":" +:+ show lineNum
        else file
  end.

Definition emoji (lv : Level) : string :=
  match lv with ERROR => glyph_error | WARN => glyph_warn | INFO => glyph_info end.

Definition _logMessage (lv : Level) (loc txt : string) : M unit :=
  let* ts := _getTimestamp in
  let* now := Date_now in
  let msg := Build_Message ts lv loc txt now in
  update_this (fun c => set_messages (messages c ++ [msg]) c) ;;
  let* c := get_this in
  if autoLog c then
    let locStr := if JS.nonempty loc then TAB +:+ loc else "" in
    console_log (emoji lv +:+ " " +:+ timestamp msg +:+ " " +:+ level_name lv +:+ ":" +:+
                 locStr +:+ TAB +:+ txt)
  else ret tt.

(** The [console] listener. *)
Definition on_console (type : string) (url : option string)
    (lineNumber columnNumber : value) (msgText : string) : M unit :=
  let* lv :=
    if String.eqb (JS.toUpperCase type) "ERROR" then
      update_this (fun c => set_errors (S (errors c)) c) ;; ret ERROR
    else if String.eqb (JS.toUpperCase type) "WARNING" then
      update_this (fun c => set_warnings (S (warnings c)) c) ;; ret WARN
    else ret INFO in
  let* c := get_this in
  _logMessage lv (_formatLocation c url lineNumber columnNumber) msgText.

(** The [pageerror] listener. *)
Definition on_pageerror (stack : option string) (message : string) : M unit :=
  let subject := match stack with
                 | Some s => if JS.nonempty s then s else message
                 | None => message
                 end in
  let matched := match_frame subject in
  update_this (fun c => set_errors (S (errors c)) c) ;;
  let* c := get_this in
  _logMessage ERROR
    match matched with
    | Some (f, l, co) => _formatLocation c (Some f) (Str l) (Str co)
    | None => ""
    end
    ("Uncaught: " +:+ message).

(** The display form of a response URL. *)
Definition displayUrl (c : ConsoleCapture) (urlPath : string) : string :=
  if JS.nonempty (baseUrl c) then JS.replace (baseUrl c) "" urlPath else urlPath.

(** The [response] listener. *)
Definition on_response (url : string) (status : Z) (statusText : string) : M unit :=
  if 400 <=? status then
    let urlPath := url in
    let* c := get_this in
    let display := displayUrl c urlPath in
    if bool_decide (urlPath ∈ reportedErrors c) then ret tt
    else
      update_this (fun c => set_reportedErrors ({[urlPath]} ∪ reportedErrors c) c) ;;
      update_this (fun c => set_errors (S (errors c)) c) ;;
      _logMessage ERROR display
        ("HTTP " +:+ JS.show_int status +:+ " (" +:+ statusText +:+ ")")
  else ret tt.

(** The one-shot [framenavigated] listener of [attachConsoleCapture]:
    [page.once] removes it when it is first called, whatever the frame.
    It assigns to the caller's [options] object. *)
Definition on_framenavigated (isMainFrame : bool) (url : string) : M unit :=
  fun w =>
    if onceFramenavigated w then
      let learned :=
        if isMainFrame && JS.nonempty url && JS.startsWith "http" url then
          match parseURL host url with
          | Some (protocol, hostname) => Some (protocol +:+ "//" +:+ hostname)
          | None => None
          end
        else None in
      (tt, Build_World (this w)
             match learned with
             | Some b => Options.set_baseUrl b (options w)
             | None => options w
             end
             false (reads w) (stdout w))
    else (tt, w).

(** [page.emit]: every listener registered for the event runs. *)
Definition dispatch (e : Event) : M unit :=
  match e with
  | Console type url lineNumber columnNumber msgText =>
      on_console type url lineNumber columnNumber msgText
  | PageError stack message => on_pageerror stack message
  | Response url status statusText => on_response url status statusText
  | FrameNavigated isMainFrame url => on_framenavigated isMainFrame url
  end.

Definition deliver (e : Event) (w : World) : World := exec (dispatch e) w.

(** The events of a session, delivered one after the other. *)
Definition run (es : list Event) (w : World) : World :=
  fold_left (fun w e => deliver e w) es w.

Definition render_message (msg : Message) : string :=
  timestamp msg +:+ " " +:+ level_name (level msg) +:+ ":" +:+
  (if JS.nonempty (location msg) then TAB +:+ location msg else "") +:+
  TAB +:+ text msg +:+ NL.

Definition render_messages (ms : list Message) : string :=
  fold_left (fun out msg => out +:+ render_message msg) ms "".

(** The lines of the report that depend on how long ago capture began. *)
Definition report_head (title : string) (c : ConsoleCapture) (elapsed : string) : string :=
  let startStr := JS.replace "T" " " (JS.slice 0 19 (JS.toISOString (startTime c))) in
  "# " +:+ title +:+ NL +:+
  "# Started: " +:+ startStr +:+ " | Elapsed: " +:+ elapsed +:+ "s" +:+ NL.

Definition report_counts (c : ConsoleCapture) : string :=
  "# Errors: " +:+ JS.show_nat (errors c) +:+ " | Warnings: " +:+
  JS.show_nat (warnings c) +:+ " | Total Messages: " +:+
  JS.show_nat (length (messages c)) +:+ NL +:+ NL.

Definition report_tallies (c : ConsoleCapture) : string :=
  (if (0 <? errors c)%nat
   then NL +:+ glyph_error +:+ " ERROR: " +:+ JS.show_nat (errors c) +:+
        " SEVERE logs detected!" +:+ NL
   else "") +:+
  (if (0 <? warnings c)%nat
   then glyph_warn +:+ "  WARNING: " +:+ JS.show_nat (warnings c) +:+
        " warning logs detected!" +:+ NL
   else "").

Definition report_footer (endTime : Z) : string :=
  let dateStr := JS.slice 0 10 (JS.toISOString endTime) in
  let timeStr := JS.replace " " "" (JS.toLowerCase (toLocaleTimeString host endTime)) in
  NL +:+ "## Console capture complete on " +:+ dateStr +:+ " @" +:+ timeStr +:+
  " ##" +:+ NL.

(** [getOutput(title)]; [None] is the call without argument. *)
Definition getOutput (title : option string) : M string :=
  let title := match title with Some t => t | None => "Browser Console Log Capture" end in
  let* now := Date_now in
  let* c := get_this in
  let elapsed := elapsed_text 1 now (startTime c) in
  let output := report_head title c elapsed +:+ report_counts c in
  update_this (fun c => set_messages (sort_by_time (messages c)) c) ;;
  let* c := get_this in
  let output := output +:+ render_messages (messages c) in
  let output := output +:+ report_tallies c in
  let* endTime := Date_now in
  ret (output +:+ report_footer endTime).

(** [getSummary()] *)
Definition getSummary : M Summary.t :=
  let* now := Date_now in
  let* c := get_this in
  ret (Summary.Build_t (length (messages c)) (errors c) (warnings c)
         (elapsed_text 1 now (startTime c))).

(** [new ConsoleCapture(page, options)], the listeners included. *)
Definition construct (opts : Options.t) (once : bool) : World :=
  let autoLog := match Options.autoLog opts with Some false => false | _ => true end in
  let verbose := match Options.verbose opts with Some b => b | None => false end in
  let c := {|
    baseUrl := match Options.baseUrl opts with
               | Some b => if JS.nonempty b then b else ""
               | None => ""
               end;
    autoLog := autoLog;
    verbose := verbose;
    saveToFile := match Options.saveToFile opts with Some b => b | None => false end;
    filePrefix := match Options.filePrefix opts with
                  | Some p => if JS.nonempty p then p else "console-capture"
                  | None => "console-capture"
                  end;
    startTime := clock host 0;
    messages := [];
    errors := 0;
    warnings := 0;
    reportedErrors := ∅
  |} in
  Build_World c opts once 1
    (if autoLog then
       [NL +:+ glyph_started +:+ " Console capture started (autoLog: " +:+
        show_bool autoLog +:+ ", verbose: " +:+ show_bool verbose +:+ ")" +:+ NL]
     else []).

(** [attachConsoleCapture(page, options)] *)
Definition attachConsoleCapture (opts : Options.t) : World :=
  let missing := match Options.baseUrl opts with
                 | Some b => negb (JS.nonempty b)
                 | None => true
                 end in
  construct opts missing.

(** [captureConsole(page)] *)
Definition captureConsole : World :=
  attachConsoleCapture
    (Options.Build_t None (Some true) None None None).

End Methods.

(* ================================================================== *)
(** ** Sessions *)
(* ================================================================== *)

(** What happens to an instance during its life: the page emits an event,
    or the caller asks for the report or the summary. *)
Inductive Call :=
| Emit (e : Event)
| CallGetOutput (title : option string)
| CallGetSummary.

Definition perform (host : Host) (c : Call) (w : World) : World :=
  match c with
  | Emit e => deliver host e w
  | CallGetOutput title => exec (getOutput host title) w
  | CallGetSummary => exec (getSummary host) w
  end.

Definition session (host : Host) (cs : list Call) (w : World) : World :=
  fold_left (fun w c => perform host c w) cs w.

(* ================================================================== *)
(** ** Vocabulary of the properties *)
(* ================================================================== *)

(** How many stored records have a given level. *)
Fixpoint count_level (lv : Level) (ms : list Message) : nat :=
  match ms with
  | [] => 0%nat
  | m :: r => ((if level_eqb (level m) lv then 1 else 0) + count_level lv r)%nat
  end.


(** The normalization of a location as section 4.2 of the specification
    words it: "if the prefix is non-empty and the raw string starts with it,
    strip it and remove a single leading path separator; otherwise return
    the raw string unchanged". *)
Definition spec_normalize (prefix raw : string) : string :=
  if JS.nonempty prefix && String.prefix prefix raw
  then JS.strip_leading_slash (JS.drop (String.length prefix) raw)
  else raw.

(** Every character of [s] is an ASCII character (below 128), as in the
    tags [ConsoleMessage.type()] returns. *)
Fixpoint ascii_only (s : string) : bool :=
  match s with
  | EmptyString => true
  | String c r => (nat_of_ascii c <? 128)%nat && ascii_only r
  end.

(** [s.includes(pat)] *)
Fixpoint includes (pat s : string) : bool :=
  String.prefix pat s ||
  match s with
  | EmptyString => false
  | String _ r => includes pat r
  end.

(** The capital of a small letter. *)
Definition capital (c : ascii) : ascii := ascii_of_nat (nat_of_ascii c - 32).

(** [tag] spells the lower-case [word], each letter in either case. *)
Fixpoint spelling_of (word tag : string) : bool :=
  match word, tag with
  | EmptyString, EmptyString => true
  | String w word', String t tag' =>
      (Ascii.eqb t w || Ascii.eqb t (capital w)) && spelling_of word' tag'
  | _, _ => false
  end.



(** The capture times never decrease along the list. *)
Fixpoint ascending (ms : list Message) : Prop :=
  match ms with
  | [] => True
  | m :: r => Forall (fun x => time m <= time x) r /\ ascending r
  end.

(** A clock that never runs backwards. *)
Definition monotone (host : Host) : Prop :=
  forall i j : nat, (i <= j)%nat -> clock host i <= clock host j.

(** [out1] and [out2] are the same text but for one place, where [out1]
    reads [e1] and [out2] reads [e2]; decided by trying every place. *)
Definition same_but_for (e1 e2 out1 out2 : string) : bool :=
  existsb (fun k =>
             String.eqb (JS.take k out1) (JS.take k out2) &&
             String.prefix e1 (JS.drop k out1) &&
             String.prefix e2 (JS.drop k out2) &&
             String.eqb (JS.drop (k + String.length e1) out1)
                        (JS.drop (k + String.length e2) out2))
          (seq 0 (S (String.length out1))).

(** The record [_logMessage] pushes in world [w]: stamped with the next
    clock reading, timed with the one after. *)
Definition new_message (host : Host) (w : World) (lv : Level) (loc txt : string) : Message :=
  {| timestamp := "[" +:+ JS.padStart 5 "0"
                    (elapsed_text 2 (clock host (reads w)) (startTime (this w))) +:+ "]";
     level := lv;
     location := loc;
     text := txt;
     time := clock host (S (reads w)) |}.

(** The level the console listener gives a tag. *)
Definition level_of_tag (type : string) : Level :=
  if String.eqb (JS.toUpperCase type) "ERROR" then ERROR
  else if String.eqb (JS.toUpperCase type) "WARNING" then WARN
  else INFO.

(** The increment that goes with a level. *)
Definition tally (lv : Level) (c : ConsoleCapture) : ConsoleCapture :=
  match lv with
  | ERROR => set_errors (S (errors c)) c
  | WARN => set_warnings (S (warnings c)) c
  | INFO => c
  end.

(** The location the pageerror listener derives from an error. *)
Definition frame_location (c : ConsoleCapture) (stack : option string)
    (message : string) : string :=
  match match_frame match stack with
                    | Some s => if JS.nonempty s then s else message
                    | None => message
                    end with
  | Some (f, l, co) => _formatLocation c (Some f) (Str l) (Str co)
  | None => ""
  end.

(** The title [getOutput] prints. *)
Definition default_title (title : option string) : string :=
  match title with Some t => t | None => "Browser Console Log Capture" end.

(** Every letter of [s] is a small letter. *)
Fixpoint all_lower (s : string) : bool :=
  match s with
  | EmptyString => true
  | String c r => JS.is_lower c && all_lower r
  end.

(** The stored records ascend in time, and none is later than the next
    reading of the clock. *)
Definition timely (host : Host) (w : World) : Prop :=
  ascending (messages (this w)) /\
  Forall (fun m => time m <= clock host (reads w)) (messages (this w)).

(* ================================================================== *)
(** ** A concrete platform for the examples *)
(* ================================================================== *)

(** The en-US twelve-hour time of an instant, in UTC: ["03:12 AM"]. *)
Definition utc_time_en_US (t : Z) : string :=
  let minutes := t / 60000 mod 1440 in
  let h := minutes / 60 in
  let h12 := if h mod 12 =? 0 then 12 else h mod 12 in
  JS.digits 2 h12 +:+ ":" +:+ JS.digits 2 (minutes mod 60) +:+
  (if h <? 12 then " AM" else " PM").

Fixpoint until_any (stops : list ascii) (s : string) : string :=
  match s with
  | EmptyString => EmptyString
  | String c r =>
      if existsb (Ascii.eqb c) stops then EmptyString else String c (until_any stops r)
  end.

Fixpoint split_scheme (s : string) : option (string * string) :=
  match s with
  | EmptyString => None
  | String c r =>
      if String.prefix "://" s then Some (EmptyString, JS.drop 3 s)
      else match split_scheme r with
           | Some (scheme, rest) => Some (String c scheme, rest)
           | None => None
           end
  end.

(** [protocol] and [host] of a URL [scheme://host/...] that is already in
    the form [new URL] would give it. *)
Definition plain_url (u : string) : option (string * string) :=
  match split_scheme u with
  | Some (scheme, rest) =>
      Some (scheme +:+ ":", until_any ["/"; "?"; "#"]%char rest)
  | None => None
  end.

(** A platform whose successive clock readings are [ticks] (the last one
    again and again once they are used up). *)
Definition host_of (ticks : list Z) : Host :=
  {| clock := fun n => List.nth n ticks (List.last ticks 0);
     toLocaleTimeString := utc_time_en_US;
     parseURL := plain_url |}.

(** A platform whose clock starts at [start] and advances by [step] between
    two readings. *)
Definition ticking_host (start step : Z) : Host :=
  {| clock := fun n => start + step * Z.of_nat n;
     toLocaleTimeString := utc_time_en_US;
     parseURL := plain_url |}.

(* ================================================================== *)
(** ** Example sessions *)
(* ================================================================== *)

Module Examples.

(** An instance with the prefix [https://example.com]. *)
Definition with_prefix : World :=
  attachConsoleCapture (ticking_host 0 20)
    (Options.Build_t (Some "https://example.com") (Some false) None None None).

(** No prefix supplied; the page navigates to [https://example.com/] and
    then logs from [https://example.com/app.js], line 10, column 5. *)
Definition learning_host : Host := ticking_host 0 20.

Definition learning : World :=
  run learning_host
    [FrameNavigated true "https://example.com/index.html";
     Console "log" (Some "https://example.com/app.js") (Num 10) (Num 5) "ready"]
    (attachConsoleCapture learning_host Options.empty).

(** A clock that is set back by four seconds between two console events. *)
Definition set_back_host : Host := host_of [0; 5000; 5000; 1000; 1000; 2000; 2000].

Definition set_back : World :=
  run set_back_host
    [Console "log" None Undefined Undefined "first";
     Console "log" None Undefined Undefined "second"]
    (attachConsoleCapture set_back_host
       (Options.Build_t None (Some false) None None None)).

(** One console event, then the report is asked for twice, a minute apart. *)
Definition twice_host : Host := host_of [0; 40; 40; 1000; 1000; 61000; 61000].

Definition twice : World :=
  run twice_host
    [Console "log" None Undefined Undefined "ready"]
    (attachConsoleCapture twice_host
       (Options.Build_t None (Some false) None None None)).

Definition first_report : string := result (getOutput twice_host None) twice.

Definition second_report : string :=
  result (getOutput twice_host None) (exec (getOutput twice_host None) twice).

(** Three events that each leave a record. *)
Definition three_calls : list Call :=
  [Emit (Console "error" None Undefined Undefined "a");
   Emit (Response "/a.js" 500 "Internal Server Error");
   Emit (PageError None "b")].

(** One failed response. *)
Definition one_failure : list Call :=
  [Emit (Response "/missing.js" 404 "Not Found")].



End Examples.

(* ================================================================== *)
(** ** Printing and saving the report *)
(* ================================================================== *)

(** The Node.js side of the platform that [saveOutput] uses:
    [process.cwd()] and [path.join(a, b)]. *)
Record Node := {
  cwd : string;
  path_join : string -> string -> string
}.

(** The directories made and the files written, by path. *)
Record Disk := {
  dirs : gset string;
  files : gmap string string
}.

(** [fs.mkdirSync(dir, { recursive: true })]: no complaint when the
    directory is there already. *)
Definition mkdirSync (dir : string) (d : Disk) : Disk :=
  {| dirs := {[dir]} ∪ dirs d; files := files d |}.

(** [fs.writeFileSync(filepath, data)]: the file is created or replaced. *)
Definition writeFileSync (filepath data : string) (d : Disk) : Disk :=
  {| dirs := dirs d; files := <[filepath := data]> (files d) |}.

(** The glyph of the "saved" line, byte for byte as the source file holds it. *)
Definition glyph_saved : string :=
  of_bytes [195; 176; 197; 184; 226; 128; 156]%nat.

(** [s.replace(/[:.]/g, '-')] *)
Definition dash_colons_and_dots (s : string) : string :=
  JS.map_chars (fun c => if Ascii.eqb c ":" || Ascii.eqb c "." then "-"%char else c) s.

(** The [timestamp] of [saveOutput] for an instant. *)
Definition file_stamp (t : Z) : string :=
  JS.slice 0 19 (dash_colons_and_dots (JS.toISOString t)).

Section Saving.

Context (host : Host) (node : Node).

(** [saveOutput(title)]; [None] is the call without argument, for which
    the title is ['console-capture'].  The result is the file path, the
    world and the disk afterwards. *)
Definition saveOutput (title : option string) (w : World) (d : Disk)
    : string * World * Disk :=
  let title := match title with Some t => t | None => "console-capture" end in
  let outputDir := path_join node (cwd node) "test-results" in
  let d := mkdirSync outputDir d in
  let '(now, w) := Date_now host w in
  let timestamp := file_stamp now in
  let filename := filePrefix (this w) +:+ "-" +:+ timestamp +:+ ".txt" in
  let filepath := path_join node outputDir filename in
  let '(output, w) := getOutput host (Some title) w in
  let d := writeFileSync filepath output d in
  let '(_, w) := console_log (glyph_saved +:+ " Console logs saved to: " +:+ filepath) w in
  (filepath, w, d).

(** [printSummary(title)] *)
Definition printSummary (title : option string) (w : World) (d : Disk)
    : World * Disk :=
  let '(output, w) := getOutput host title w in
  let '(_, w) := console_log (NL +:+ JS.repeat "=" 80) w in
  let '(_, w) := console_log output w in
  let '(_, w) := console_log (JS.repeat "=" 80 +:+ NL) w in
  if saveToFile (this w) then
    let '(_, w, d) := saveOutput title w d in (w, d)
  else (w, d).

End Saving.

(* ================================================================== *)
(** ** More vocabulary *)
(* ================================================================== *)

(** The line [_logMessage] prints for a record when [autoLog] is on. *)
Definition stream_line (m : Message) : string :=
  emoji (level m) +:+ " " +:+ timestamp m +:+ " " +:+ level_name (level m) +:+ ":" +:+
  (if JS.nonempty (location m) then TAB +:+ location m else "") +:+ TAB +:+ text m.

(** The banner the constructor prints when [autoLog] is on. *)
Definition banner (c : ConsoleCapture) : string :=
  NL +:+ glyph_started +:+ " Console capture started (autoLog: " +:+
  show_bool (autoLog c) +:+ ", verbose: " +:+ show_bool (verbose c) +:+ ")" +:+ NL.

(** How many calls of [cs] satisfy [p]. *)
Definition count_calls (p : Call -> bool) (cs : list Call) : nat :=
  length (List.filter p cs).

Definition is_console (c : Call) : bool :=
  match c with Emit (Console _ _ _ _ _) => true | _ => false end.

Definition is_console_of (lv : Level) (c : Call) : bool :=
  match c with
  | Emit (Console type _ _ _ _) => level_eqb (level_of_tag type) lv
  | _ => false
  end.

Definition is_pageerror (c : Call) : bool :=
  match c with Emit (PageError _ _) => true | _ => false end.

(** The records of [ms] captured at instant [t], in their order. *)
Definition captured_at (t : Z) (ms : list Message) : list Message :=
  List.filter (fun m => time m =? t) ms.

(** No position of [s] is at a line terminator. *)
Fixpoint one_line (s : string) : bool :=
  negb (at_line_terminator s) &&
  match s with
  | EmptyString => true
  | String _ r => one_line r
  end.

(** The first navigation event of a session, if any. *)
Fixpoint first_navigation (cs : list Call) : option (bool * string) :=
  match cs with
  | [] => None
  | Emit (FrameNavigated m u) :: _ => Some (m, u)
  | _ :: r => first_navigation r
  end.

(** [!options.baseUrl] *)
Definition prefix_missing (opts : Options.t) : bool :=
  match Options.baseUrl opts with
  | Some b => negb (JS.nonempty b)
  | None => true
  end.

(** [toISOString] up to the seconds: all but the last five characters. *)
Definition iso_to_seconds (t : Z) : string :=
  let '(y, m, d) := JS.civil_from_days (t / 86400000) in
  let ms := t mod 86400000 in
  JS.show_year y +:+ "-" +:+ JS.digits 2 m +:+ "-" +:+ JS.digits 2 d +:+ "T" +:+
  JS.digits 2 (ms / 3600000) +:+ ":" +:+ JS.digits 2 (ms / 60000 mod 60) +:+ ":" +:+
  JS.digits 2 (ms / 1000 mod 60).

(** A Node.js whose working directory is [/work] and whose [path.join]
    puts a slash between two plain names; a stack as Chrome prints it; an
    instance that saves its reports. *)
Module MoreExamples.

Definition posix_node : Node :=
  {| cwd := "/work"; path_join := fun a b => a +:+ "/" +:+ b |}.

Definition chrome_stack : string :=
  "ReferenceError: x is not defined" +:+ NL +:+
  "    at https://example.com/app.js:10:5".

Definition saving : World :=
  attachConsoleCapture (ticking_host 0 10)
    (Options.Build_t None (Some false) None (Some true) None).

End MoreExamples.

(* ================================================================== *)
(** * Properties *)
(* ================================================================== *)

#[local] Arguments String.append !_ _ : simpl nomatch.

(* ================================================================== *)
(** ** Strings *)
(* ================================================================== *)

Section StringFacts.

Lemma app_empty_r (s : string) : s +:+ "" = s.
Proof. induction s as [|c s IH]; simpl; congruence. Qed.

Lemma app_assoc_s (a b c : string) : (a +:+ b) +:+ c = a +:+ (b +:+ c).
Proof. induction a as [|x a IH]; simpl; congruence. Qed.

Lemma length_app_s (a b : string) :
  String.length (a +:+ b) = (String.length a + String.length b)%nat.
Proof. induction a as [|x a IH]; simpl; congruence. Qed.

Lemma prefix_app (p s : string) : String.prefix p (p +:+ s) = true.
Proof.
  induction p as [|c p IH]; simpl.
  - now destruct s.
  - destruct (ascii_dec c c) as [_|ne]; [exact IH | now elim ne].
Qed.

Lemma prefix_split (p s : string) :
  String.prefix p s = true -> s = p +:+ JS.drop (String.length p) s.
Proof.
  revert s; induction p as [|c p IH]; intros s H; simpl.
  - reflexivity.
  - destruct s as [|d s]; simpl in H; [discriminate|].
    destruct (ascii_dec c d) as [->|]; [|discriminate].
    simpl. now rewrite <- IH.
Qed.

Lemma drop_app (p s : string) : JS.drop (String.length p) (p +:+ s) = s.
Proof. induction p as [|c p IH]; simpl; [reflexivity | exact IH]. Qed.

Lemma take_app (p s : string) : JS.take (String.length p) (p +:+ s) = p.
Proof. induction p as [|c p IH]; simpl; [now destruct s | now rewrite IH]. Qed.

Lemma drop_drop (n m : nat) (s : string) : JS.drop n (JS.drop m s) = JS.drop (m + n) s.
Proof.
  revert s; induction m as [|m IH]; intros s; simpl; [reflexivity|].
  destruct s as [|c s]; [now destruct n | apply IH].
Qed.

Lemma take_drop (n : nat) (s : string) : JS.take n s +:+ JS.drop n s = s.
Proof.
  revert s; induction n as [|n IH]; intros [|c s]; simpl; try reflexivity.
  now rewrite IH.
Qed.


Lemma length_repeat (c : ascii) (n : nat) : String.length (JS.repeat c n) = n.
Proof. induction n as [|n IH]; simpl; [reflexivity | now rewrite IH]. Qed.

Lemma nonempty_false (s : string) : JS.nonempty s = false <-> s = "".
Proof. destruct s; simpl; split; congruence. Qed.

Lemma nonempty_true (s : string) : JS.nonempty s = true <-> s <> "".
Proof. destruct s; simpl; split; congruence. Qed.

(** [replace] rewrites the front of a string that starts with the pattern. *)
Lemma replace_at_front (pat rep s : string) :
  String.prefix pat s = true ->
  JS.replace pat rep s = rep +:+ JS.drop (String.length pat) s.
Proof. intros H. destruct s; simpl; simpl in H; now rewrite H. Qed.

(** [replace] leaves a string alone that does not hold the pattern. *)
Lemma replace_absent (pat rep s : string) :
  includes pat s = false -> JS.replace pat rep s = s.
Proof.
  induction s as [|c s IH]; simpl; intros H;
    apply orb_false_iff in H as [Hp Hi]; rewrite Hp; [reflexivity|].
  now rewrite IH.
Qed.


End StringFacts.

(* ================================================================== *)
(** ** Level tags *)
(* ================================================================== *)

Section Spelling.

Lemma code_inj (a b : ascii) : nat_of_ascii a = nat_of_ascii b -> a = b.
Proof.
  intros H. rewrite <- (ascii_nat_embedding a), <- (ascii_nat_embedding b).
  now rewrite H.
Qed.

Lemma is_lower_bounds (c : ascii) :
  JS.is_lower c = true <-> (97 <= nat_of_ascii c <= 122)%nat.
Proof.
  unfold JS.is_lower. rewrite andb_true_iff, !Nat.leb_le. tauto.
Qed.

(** The letters that [toUpperCase] turns into the capital of [w] are [w]
    and that capital. *)
Lemma upper_char_capital (t w : ascii) :
  JS.is_lower w = true ->
  JS.upper_char t = capital w <-> t = w \/ t = capital w.
Proof.
  intros Hw. apply is_lower_bounds in Hw.
  pose proof (nat_ascii_bounded t) as Ht.
  assert (Hc : nat_of_ascii (capital w) = (nat_of_ascii w - 32)%nat).
  { unfold capital. apply nat_ascii_embedding. lia. }
  unfold JS.upper_char.
  destruct (JS.is_lower t) eqn:Hl.
  - apply is_lower_bounds in Hl. split.
    + intros H. left. apply code_inj.
      apply (f_equal nat_of_ascii) in H.
      rewrite Hc, nat_ascii_embedding in H by lia. lia.
    + intros [-> | ->]; [reflexivity|]. rewrite Hc in Hl. lia.
  - split; [now right|].
    intros [-> | ->]; [|reflexivity].
    apply is_lower_bounds in Hw. congruence.
Qed.

Lemma toUpperCase_spelling (word tag : string) :
  all_lower word = true ->
  JS.toUpperCase tag = JS.map_chars capital word <-> spelling_of word tag = true.
Proof.
  unfold JS.toUpperCase.
  revert tag; induction word as [|w word IH]; intros [|t tag] Hw; simpl;
    try (split; congruence).
  simpl in Hw. apply andb_true_iff in Hw as [Hw Hword].
  rewrite andb_true_iff, orb_true_iff, !Ascii.eqb_eq, <- (IH tag Hword),
    <- (upper_char_capital t w Hw).
  split; [intros [= -> ->]; tauto | intros [-> ->]; reflexivity].
Qed.

(** The two comparisons of the console listener, in terms of spellings. *)
Lemma tag_is_error (tag : string) :
  String.eqb (JS.toUpperCase tag) "ERROR" = spelling_of "error" tag.
Proof.
  apply eq_true_iff_eq. rewrite String.eqb_eq.
  exact (toUpperCase_spelling "error" tag eq_refl).
Qed.

Lemma tag_is_warning (tag : string) :
  String.eqb (JS.toUpperCase tag) "WARNING" = spelling_of "warning" tag.
Proof.
  apply eq_true_iff_eq. rewrite String.eqb_eq.
  exact (toUpperCase_spelling "warning" tag eq_refl).
Qed.

End Spelling.

(* ================================================================== *)
(** ** Locations *)
(* ================================================================== *)

Section Locations.

Lemma formatLocation_file (c : ConsoleCapture) (raw : string) :
  raw <> "" ->
  _formatLocation c (Some raw) Undefined Undefined =
  if JS.nonempty (baseUrl c)
  then JS.strip_leading_slash (JS.replace (baseUrl c) "" raw)
  else raw.
Proof.
  intros H. apply nonempty_true in H. unfold _formatLocation. now rewrite H.
Qed.

Lemma formatLocation_suffix (c : ConsoleCapture) (raw : string) (lineNum colNum : value) :
  raw <> "" ->
  _formatLocation c (Some raw) lineNum colNum =
  _formatLocation c (Some raw) Undefined Undefined +:+
  (if gt_zero lineNum then
     if truthy colNum then ":" +:+ show lineNum +:+ ":" +:+ show colNum
     else ":" +:+ show lineNum
   else "").
Proof.
  intros H. apply nonempty_true in H. unfold _formatLocation. rewrite H. simpl.
  destruct (gt_zero lineNum); [destruct (truthy colNum)|]; simpl;
    now rewrite ?app_empty_r.
Qed.

End Locations.

(* ================================================================== *)
(** ** What the listeners do to the world *)
(* ================================================================== *)

Section Listeners.

Context (host : Host).

Lemma logMessage_exec (lv : Level) (loc txt : string) (w : World) :
  exec (_logMessage host lv loc txt) w =
  Build_World
    (set_messages (messages (this w) ++ [new_message host w lv loc txt]) (this w))
    (options w) (onceFramenavigated w) (S (S (reads w)))
    (stdout w ++
     if autoLog (this w) then
       [emoji lv +:+ " " +:+ timestamp (new_message host w lv loc txt) +:+ " " +:+
        level_name lv +:+ ":" +:+ (if JS.nonempty loc then TAB +:+ loc else "") +:+
        TAB +:+ txt]
     else []).
Proof.
  unfold _logMessage, exec, bind; simpl.
  destruct (autoLog (this w)); simpl; [reflexivity|].
  now rewrite app_nil_r.
Qed.

Lemma on_console_exec (type : string) (url : option string) (l c : value)
    (txt : string) (w : World) :
  exec (on_console host type url l c txt) w =
  exec (_logMessage host (level_of_tag type) (_formatLocation (this w) url l c) txt)
       (set_this (tally (level_of_tag type) (this w)) w).
Proof.
  unfold on_console, level_of_tag, exec, bind.
  destruct (String.eqb (JS.toUpperCase type) "ERROR"); [reflexivity|].
  destruct (String.eqb (JS.toUpperCase type) "WARNING"); [reflexivity|].
  simpl. now destruct w.
Qed.

Lemma on_pageerror_exec (stack : option string) (message : string) (w : World) :
  exec (on_pageerror host stack message) w =
  exec (_logMessage host ERROR (frame_location (this w) stack message)
          ("Uncaught: " +:+ message))
       (set_this (tally ERROR (this w)) w).
Proof. reflexivity. Qed.

Lemma on_response_exec (url : string) (status : Z) (statusText : string) (w : World) :
  exec (on_response host url status statusText) w =
  if (400 <=? status) && negb (bool_decide (url ∈ reportedErrors (this w))) then
    exec (_logMessage host ERROR (displayUrl (this w) url)
            ("HTTP " +:+ JS.show_int status +:+ " (" +:+ statusText +:+ ")"))
         (set_this (tally ERROR
                      (set_reportedErrors ({[url]} ∪ reportedErrors (this w)) (this w))) w)
  else w.
Proof.
  unfold on_response, exec, bind.
  destruct (400 <=? status); [|reflexivity].
  simpl. destruct (bool_decide (url ∈ reportedErrors (this w))); reflexivity.
Qed.

End Listeners.

(* ================================================================== *)
(** ** Sorting by capture time *)
(* ================================================================== *)

Section Sorting.

Lemma insert_by_time_perm (m : Message) (l : list Message) :
  Permutation (insert_by_time m l) (m :: l).
Proof.
  induction l as [|x r IH]; simpl; [reflexivity|].
  destruct (time m <=? time x); [reflexivity|].
  rewrite IH. apply perm_swap.
Qed.

Lemma sort_by_time_perm (l : list Message) : Permutation (sort_by_time l) l.
Proof.
  induction l as [|m r IH]; simpl; [reflexivity|].
  rewrite insert_by_time_perm. now constructor.
Qed.

Lemma sort_by_time_length (l : list Message) : length (sort_by_time l) = length l.
Proof. apply Permutation_length, sort_by_time_perm. Qed.

Lemma insert_by_time_least (m : Message) (l : list Message) :
  Forall (fun x => time m <= time x) l -> insert_by_time m l = m :: l.
Proof.
  intros H. destruct l as [|x r]; simpl; [reflexivity|].
  inversion_clear H as [|? ? Hx _].
  apply Z.leb_le in Hx. now rewrite Hx.
Qed.

(** Sorting a list whose times already ascend changes nothing. *)
Lemma sort_by_time_ascending (l : list Message) :
  ascending l -> sort_by_time l = l.
Proof.
  induction l as [|m r IH]; simpl; [reflexivity|].
  intros [Hm Hr]. rewrite (IH Hr). now apply insert_by_time_least.
Qed.

Lemma insert_by_time_ascending (m : Message) (l : list Message) :
  ascending l -> ascending (insert_by_time m l).
Proof.
  induction l as [|x r IH]; simpl; [auto|].
  intros [Hx Hr]. destruct (time m <=? time x) eqn:E; simpl.
  - apply Z.leb_le in E. repeat split; auto.
    constructor; [exact E|].
    eapply Forall_impl; [exact Hx|]. simpl; intros; lia.
  - apply Z.leb_gt in E. split; [|auto].
    rewrite insert_by_time_perm. constructor; [lia | exact Hx].
Qed.

Lemma sort_by_time_sorted (l : list Message) : ascending (sort_by_time l).
Proof.
  induction l as [|m r IH]; simpl; [exact I|].
  now apply insert_by_time_ascending.
Qed.

Lemma sort_by_time_idem (l : list Message) :
  sort_by_time (sort_by_time l) = sort_by_time l.
Proof. apply sort_by_time_ascending, sort_by_time_sorted. Qed.

Lemma ascending_snoc (l : list Message) (m : Message) :
  ascending l -> Forall (fun x => time x <= time m) l -> ascending (l ++ [m]).
Proof.
  induction l as [|x r IH]; simpl; [auto|].
  intros [Hx Hr] Hm. inversion_clear Hm as [|? ? Hxm Hrm].
  split; [|auto].
  apply Forall_app; split; [exact Hx | now constructor].
Qed.

Lemma count_level_app (lv : Level) (a b : list Message) :
  count_level lv (a ++ b) = (count_level lv a + count_level lv b)%nat.
Proof. induction a as [|m a IH]; simpl; [reflexivity | rewrite IH; lia]. Qed.

Lemma count_level_perm (lv : Level) (a b : list Message) :
  Permutation a b -> count_level lv a = count_level lv b.
Proof. induction 1; simpl; lia. Qed.

End Sorting.

(* ================================================================== *)
(** ** Reports and summaries *)
(* ================================================================== *)

Section Reports.

Context (host : Host).

Lemma getOutput_exec (title : option string) (w : World) :
  exec (getOutput host title) w =
  Build_World (set_messages (sort_by_time (messages (this w))) (this w))
    (options w) (onceFramenavigated w) (S (S (reads w))) (stdout w).
Proof. reflexivity. Qed.

Lemma getOutput_result (title : option string) (w : World) :
  result (getOutput host title) w =
  report_head (default_title title) (this w)
    (elapsed_text 1 (clock host (reads w)) (startTime (this w))) +:+
  report_counts (this w) +:+
  render_messages (sort_by_time (messages (this w))) +:+
  report_tallies (this w) +:+
  report_footer host (clock host (S (reads w))).
Proof.
  transitivity
    ((((report_head (default_title title) (this w)
          (elapsed_text 1 (clock host (reads w)) (startTime (this w))) +:+
        report_counts (this w)) +:+
       render_messages (sort_by_time (messages (this w)))) +:+
      report_tallies (this w)) +:+
     report_footer host (clock host (S (reads w)))); [reflexivity|].
  now rewrite !app_assoc_s.
Qed.

Lemma getSummary_exec (w : World) :
  exec (getSummary host) w =
  Build_World (this w) (options w) (onceFramenavigated w) (S (reads w)) (stdout w).
Proof. reflexivity. Qed.

Lemma getSummary_result (w : World) :
  result (getSummary host) w =
  Summary.Build_t (length (messages (this w))) (errors (this w)) (warnings (this w))
    (elapsed_text 1 (clock host (reads w)) (startTime (this w))).
Proof. reflexivity. Qed.

End Reports.

(* ================================================================== *)
(** ** Sessions *)
(* ================================================================== *)

(** Case analysis on a call in world [w]: one goal per path through the
    listeners and the two queries. *)
Ltac call_cases c w :=
  let Hstatus := fresh "Hstatus" in
  let Hseen := fresh "Hseen" in
  destruct c as [[?type ?url ?l ?co ?txt | ?stack ?message
                 | ?url ?status ?statusText | ?mainf ?url] | ?title |];
  unfold perform, deliver, dispatch;
  [ rewrite on_console_exec, logMessage_exec
  | rewrite on_pageerror_exec, logMessage_exec
  | rewrite on_response_exec;
    match goal with
    | |- context [400 <=? ?s] => destruct (400 <=? s) eqn:Hstatus
    end;
    [ match goal with
      | |- context [bool_decide ?p] => destruct (bool_decide p) eqn:Hseen
      end;
      [ | rewrite logMessage_exec ]
    | ]
  | unfold on_framenavigated, exec; destruct (onceFramenavigated w)
  | rewrite getOutput_exec
  | rewrite getSummary_exec ];
  simpl.

Section Sessions.

Context (host : Host).

Lemma session_app (cs1 cs2 : list Call) (w : World) :
  session host (cs1 ++ cs2) w = session host cs2 (session host cs1 w).
Proof. apply fold_left_app. Qed.

Lemma session_snoc (cs : list Call) (c : Call) (w : World) :
  session host (cs ++ [c]) w = perform host c (session host cs w).
Proof. now rewrite session_app. Qed.

(** A property of every world a session can reach. *)
Lemma session_invariant (P : World -> Prop) (w0 : World) :
  P w0 -> (forall w c, P w -> P (perform host c w)) ->
  forall cs, P (session host cs w0).
Proof.
  intros H0 Hstep cs. revert w0 H0.
  induction cs as [|c cs IH]; intros w0 H0; simpl; [exact H0|].
  apply IH, Hstep, H0.
Qed.

Lemma tally_messages (lv : Level) (c : ConsoleCapture) :
  messages (tally lv c) = messages c.
Proof. now destruct lv. Qed.

Lemma tally_errors (lv : Level) (c : ConsoleCapture) :
  errors (tally lv c) = (errors c + if level_eqb lv ERROR then 1 else 0)%nat.
Proof. destruct lv; simpl; lia. Qed.

Lemma tally_warnings (lv : Level) (c : ConsoleCapture) :
  warnings (tally lv c) = (warnings c + if level_eqb lv WARN then 1 else 0)%nat.
Proof. destruct lv; simpl; lia. Qed.

Lemma tally_reportedErrors (lv : Level) (c : ConsoleCapture) :
  reportedErrors (tally lv c) = reportedErrors c.
Proof. now destruct lv. Qed.

Lemma tally_baseUrl (lv : Level) (c : ConsoleCapture) :
  baseUrl (tally lv c) = baseUrl c.
Proof. now destruct lv. Qed.

(** No call touches the prefix of the instance. *)
Lemma perform_baseUrl (c : Call) (w : World) :
  baseUrl (this (perform host c w)) = baseUrl (this w).
Proof. call_cases c w; rewrite ?tally_baseUrl; reflexivity. Qed.

Lemma perform_startTime (c : Call) (w : World) :
  startTime (this (perform host c w)) = startTime (this w).
Proof.
  call_cases c w; try reflexivity.
  now destruct (level_of_tag type).
Qed.

(** The two tallies stay the numbers of ERROR and WARN records. *)
Lemma perform_tallies (c : Call) (w : World) :
  errors (this w) = count_level ERROR (messages (this w)) /\
  warnings (this w) = count_level WARN (messages (this w)) ->
  errors (this (perform host c w)) = count_level ERROR (messages (this (perform host c w))) /\
  warnings (this (perform host c w)) = count_level WARN (messages (this (perform host c w))).
Proof.
  intros [He Hw].
  call_cases c w;
    rewrite ?tally_messages, ?count_level_app,
      ?(count_level_perm _ _ _ (sort_by_time_perm _)); simpl; try (split; lia).
  destruct (level_of_tag type); simpl; split; lia.
Qed.

(** No call lowers a tally. *)
Lemma perform_monotone (c : Call) (w : World) :
  (errors (this w) <= errors (this (perform host c w)))%nat /\
  (warnings (this w) <= warnings (this (perform host c w)))%nat.
Proof.
  call_cases c w; try (split; lia).
  destruct (level_of_tag type); simpl; split; lia.
Qed.



End Sessions.

(* ================================================================== *)
(** ** The listeners, claim by claim *)
(* ================================================================== *)

Section ListenerProperties.

Context (host : Host).


(** C10.  A response with a status below 400 changes nothing at all: it can
    be struck from any session without a difference to the world, so it
    cannot stand in the way of a later record for the same URL. *)
Theorem response_below_400_is_ignored (w : World) (cs1 cs2 : list Call)
    (url : string) (status : Z) (statusText : string) :
  status < 400 ->
  deliver host (Response url status statusText) w = w /\
  session host (cs1 ++ Emit (Response url status statusText) :: cs2) w =
  session host (cs1 ++ cs2) w.
Proof.
  intros H. apply Z.leb_gt in H.
  assert (Hid : forall x, deliver host (Response url status statusText) x = x).
  { intros x. unfold deliver, dispatch. rewrite on_response_exec. now rewrite H. }
  split; [apply Hid|].
  rewrite !session_app. simpl. now rewrite Hid.
Qed.

(** C8.  The console listener compares the tag in capitals.  For a tag
    of ASCII characters: one that spells "error" in any mix of cases gives
    an ERROR record and one more error, one that spells "warning" a WARN
    record and one more warning, any other tag an INFO record and no tally.
    Whatever the world, one record is appended, and the set of reported
    URLs plays no part. *)
Theorem console_event_classified (w : World) (type : string) (url : option string)
    (lineNumber columnNumber : value) (msgText : string) :
  ascii_only type = true ->
  let w' := deliver host (Console type url lineNumber columnNumber msgText) w in
  let lv := if spelling_of "error" type then ERROR
            else if spelling_of "warning" type then WARN
            else INFO in
  (exists m,
     messages (this w') = messages (this w) ++ [m] /\
     level m = lv /\
     location m = _formatLocation (this w) url lineNumber columnNumber /\
     text m = msgText) /\
  errors (this w') = (errors (this w) + if level_eqb lv ERROR then 1 else 0)%nat /\
  warnings (this w') = (warnings (this w) + if level_eqb lv WARN then 1 else 0)%nat /\
  reportedErrors (this w') = reportedErrors (this w).
Proof.
  intros _ w' lv. subst w'. unfold deliver, dispatch.
  rewrite on_console_exec, logMessage_exec.
  assert (Hlv : level_of_tag type = lv).
  { unfold level_of_tag. now rewrite tag_is_error, tag_is_warning. }
  rewrite Hlv. simpl.
  rewrite tally_messages, tally_errors, tally_warnings, tally_reportedErrors.
  repeat split. eexists. repeat split.
Qed.

(** C2.  In every world a session reaches, whatever the calls were and in
    whatever order, [errors] is the number of stored ERROR records and
    [warnings] the number of stored WARN records; and no call lowers either
    counter. *)
Theorem tallies_count_records (opts : Options.t) (cs : list Call) (c : Call) :
  let w := session host cs (attachConsoleCapture host opts) in
  errors (this w) = count_level ERROR (messages (this w)) /\
  warnings (this w) = count_level WARN (messages (this w)) /\
  (errors (this w) <= errors (this (perform host c w)))%nat /\
  (warnings (this w) <= warnings (this (perform host c w)))%nat.
Proof.
  intros w.
  assert (H : errors (this w) = count_level ERROR (messages (this w)) /\
              warnings (this w) = count_level WARN (messages (this w))).
  { subst w. apply session_invariant; [split; reflexivity|].
    intros; now apply perform_tallies. }
  destruct H as [He Hw]. destruct (perform_monotone host c w). auto.
Qed.

(** C3.  The end-to-end scenario, without streaming: an INFO console event,
    a WARN console event, two 404 responses for [/a.js], and an uncaught
    exception "x is not defined" without a stack frame.  The summary counts
    4 messages, 2 errors, 1 warning; the four records are the two console
    records, one record for [/a.js], and the exception's record, whose text
    is "Uncaught: x is not defined" and whose location is empty. *)
Theorem end_to_end_scenario (infoUrl warnUrl : option string)
    (infoLine infoCol warnLine warnCol : value) (infoText warnText : string) :
  let w := run host
             [Console "log" infoUrl infoLine infoCol infoText;
              Console "warning" warnUrl warnLine warnCol warnText;
              Response "/a.js" 404 "Not Found";
              Response "/a.js" 404 "Not Found";
              PageError None "x is not defined"]
             (attachConsoleCapture host
                (Options.Build_t None (Some false) None None None)) in
  Summary.messages (result (getSummary host) w) = 4%nat /\
  Summary.errors (result (getSummary host) w) = 2%nat /\
  Summary.warnings (result (getSummary host) w) = 1%nat /\
  map (fun m => (level m, location m, text m)) (messages (this w)) =
    [(INFO, _formatLocation (this w) infoUrl infoLine infoCol, infoText);
     (WARN, _formatLocation (this w) warnUrl warnLine warnCol, warnText);
     (ERROR, "/a.js", "HTTP 404 (Not Found)");
     (ERROR, "", "Uncaught: x is not defined")] /\
  stdout w = [].
Proof. repeat split. Qed.

End ListenerProperties.



(** The prefix is also taken out of the middle of a URL that does not
    start with it, which the normalization leaves unchanged. *)
Lemma response_location_strips_inside :
  map location
    (messages (this (deliver (ticking_host 0 20)
                       (Response "https://cdn.test/x?ref=https://example.com/a" 500 "")
                       Examples.with_prefix))) = ["https://cdn.test/x?ref=/a"] /\
  spec_normalize (baseUrl (this Examples.with_prefix))
    "https://cdn.test/x?ref=https://example.com/a" =
  "https://cdn.test/x?ref=https://example.com/a".
Proof. split; vm_compute; reflexivity. Qed.

(** The tag "Warning", of ASCII letters, gives a WARN record. *)
Lemma console_event_classified_witness :
  ascii_only "Warning" = true /\
  exists m,
    messages (this (deliver (ticking_host 0 20)
                      (Console "Warning" None Undefined Undefined "careful")
                      Examples.with_prefix)) =
    messages (this Examples.with_prefix) ++ [m] /\
    level m = WARN.
Proof.
  assert (Hascii : ascii_only "Warning" = true) by reflexivity.
  split; [exact Hascii|].
  pose proof (console_event_classified (ticking_host 0 20) Examples.with_prefix
                "Warning" None Undefined Undefined "careful" Hascii) as H.
  cbv zeta in H. destruct H as ((m & Hm & Hlv & _) & _).
  exists m. split; [exact Hm | exact Hlv].
Defined.

(** A 200 response for [/a.js] between two events is as good as absent. *)
Lemma response_below_400_is_ignored_witness :
  200 < 400 /\
  session (ticking_host 0 40)
    ([Emit (PageError None "b")] ++
     Emit (Response "/a.js" 200 "OK") :: [Emit (Response "/a.js" 404 "Not Found")])
    (attachConsoleCapture (ticking_host 0 40) Options.empty) =
  session (ticking_host 0 40)
    ([Emit (PageError None "b")] ++ [Emit (Response "/a.js" 404 "Not Found")])
    (attachConsoleCapture (ticking_host 0 40) Options.empty).
Proof.
  assert (H : 200 < 400) by lia.
  split; [exact H|].
  exact (proj2 (response_below_400_is_ignored (ticking_host 0 40)
                  (attachConsoleCapture (ticking_host 0 40) Options.empty)
                  [Emit (PageError None "b")]
                  [Emit (Response "/a.js" 404 "Not Found")]
                  "/a.js" 200 "OK" H)).
Defined.

(* ================================================================== *)
(** ** Locations and the prefix *)
(* ================================================================== *)

Section PrefixProperties.

(** C4, as the code has it.  An absent or empty path gives the empty
    location.  Otherwise the file part is the raw string when the prefix is
    empty; with a non-empty prefix the first occurrence of the prefix is
    taken out and then one leading [/]: a raw string that starts with the
    prefix loses it and one following [/], and a raw string that does not
    hold the prefix at all only loses one leading [/].  After the file part
    comes [:<line>] when the line number is positive, and [:<line>:<column>]
    when the column is moreover present and not the number 0. *)
Theorem formatLocation_normalizes (c : ConsoleCapture) (raw : string)
    (lineNum colNum : value) :
  let file := _formatLocation c (Some raw) Undefined Undefined in
  _formatLocation c None lineNum colNum = "" /\
  _formatLocation c (Some "") lineNum colNum = "" /\
  (raw <> "" ->
   (baseUrl c = "" -> file = raw) /\
   (baseUrl c <> "" -> String.prefix (baseUrl c) raw = true ->
    file = JS.strip_leading_slash (JS.drop (String.length (baseUrl c)) raw)) /\
   (baseUrl c <> "" -> includes (baseUrl c) raw = false ->
    file = JS.strip_leading_slash raw) /\
   (gt_zero lineNum = false -> _formatLocation c (Some raw) lineNum colNum = file) /\
   (gt_zero lineNum = true -> truthy colNum = false ->
    _formatLocation c (Some raw) lineNum colNum = file +:+ ":" +:+ show lineNum) /\
   (gt_zero lineNum = true -> truthy colNum = true ->
    _formatLocation c (Some raw) lineNum colNum =
    file +:+ ":" +:+ show lineNum +:+ ":" +:+ show colNum)).
Proof.
  intros file. split; [reflexivity|]. split; [reflexivity|].
  intros Hraw. subst file.
  rewrite (formatLocation_suffix c raw lineNum colNum Hraw).
  rewrite (formatLocation_file c raw Hraw).
  repeat split.
  - intros H. now rewrite H.
  - intros H Hp. apply nonempty_true in H. rewrite H.
    now rewrite replace_at_front.
  - intros H Hp. apply nonempty_true in H. rewrite H.
    now rewrite replace_absent.
  - intros H. rewrite H. apply app_empty_r.
  - intros H1 H2. now rewrite H1, H2.
  - intros H1 H2. now rewrite H1, H2.
Qed.

(** The location of the spec's example: prefix [https://example.com], raw
    [https://example.com/app.js], line 10, column 5. *)
Lemma formatLocation_normalizes_witness :
  _formatLocation (this Examples.with_prefix) (Some "https://example.com/app.js")
    (Num 10) (Num 5) = "app.js:10:5".
Proof.
  destruct (formatLocation_normalizes (this Examples.with_prefix)
              "https://example.com/app.js" (Num 10) (Num 5)) as (_ & _ & H).
  destruct (H ltac:(discriminate)) as (_ & Hfront & _ & _ & _ & Hcol).
  rewrite (Hcol eq_refl eq_refl).
  rewrite (Hfront ltac:(discriminate) eq_refl).
  reflexivity.
Defined.

(** C4 as stated fails: a raw string that does not start with the prefix
    is not always returned unchanged.  With the prefix
    [https://example.com], the path [/static/app.js] loses its leading
    [/]. *)
Lemma formatLocation_changes_unprefixed :
  String.prefix (baseUrl (this Examples.with_prefix)) "/static/app.js" = false /\
  _formatLocation (this Examples.with_prefix) (Some "/static/app.js")
    Undefined Undefined = "static/app.js" /\
  _formatLocation (this Examples.with_prefix) (Some "/static/app.js")
    Undefined Undefined <> "/static/app.js".
Proof. repeat split. discriminate. Qed.

(** The same for a stack frame with a function name, where the prefix sits
    inside the raw string. *)
Lemma formatLocation_strips_inside :
  String.prefix (baseUrl (this Examples.with_prefix))
    "render (https://example.com/app.js" = false /\
  _formatLocation (this Examples.with_prefix)
    (Some "render (https://example.com/app.js") (Str "10") (Str "5") =
  "render (/app.js:10:5".
Proof. split; reflexivity. Qed.

(** And column 0, which Playwright reports for the first column, is left
    out. *)
Lemma formatLocation_drops_column_zero :
  _formatLocation (this Examples.with_prefix) (Some "https://example.com/app.js")
    (Num 10) (Num 0) = "app.js:10".
Proof. reflexivity. Qed.

Context (host : Host).

(** The prefix of the instance is the one it was constructed with: nothing
    that happens later changes it. *)
Lemma session_baseUrl (cs : list Call) (w : World) :
  baseUrl (this (session host cs w)) = baseUrl (this w).
Proof.
  revert w; induction cs as [|c cs IH]; intros w; simpl; [reflexivity|].
  now rewrite IH, perform_baseUrl.
Qed.

Lemma attach_baseUrl (opts : Options.t) :
  baseUrl (this (attachConsoleCapture host opts)) =
  match Options.baseUrl opts with Some b => b | None => "" end.
Proof.
  unfold attachConsoleCapture, construct; simpl.
  destruct (Options.baseUrl opts) as [b|]; [|reflexivity].
  now destruct b.
Qed.

(** X12.  The prefix an instance strips is fixed when it is constructed:
    it is the [baseUrl] that was supplied, and the empty one when none was.
    No event, navigations included, and no query changes it. *)
Lemma baseUrl_never_learned (opts : Options.t) (cs : list Call) :
  baseUrl (this (session host cs (attachConsoleCapture host opts))) =
  match Options.baseUrl opts with Some b => b | None => "" end.
Proof. now rewrite session_baseUrl, attach_baseUrl. Qed.

(** The one-shot listener is gone after the first navigation event. *)
Lemma framenavigated_once (m : bool) (url : string) (w : World) :
  onceFramenavigated (deliver host (FrameNavigated m url) w) = false.
Proof.
  unfold deliver, dispatch, on_framenavigated, exec.
  destruct (onceFramenavigated w) eqn:E; [reflexivity | exact E].
Qed.

Lemma framenavigated_spent (m : bool) (url : string) (w : World) :
  onceFramenavigated w = false -> deliver host (FrameNavigated m url) w = w.
Proof.
  intros E. unfold deliver, dispatch, on_framenavigated, exec. now rewrite E.
Qed.

End PrefixProperties.

(** C5 on the code.  No prefix is supplied; the main frame navigates to
    [https://example.com/index.html]; a console message then comes from
    [https://example.com/app.js:10:5].  The listener has learned
    [https://example.com], but into the caller's [options] object: the
    instance copied the (absent) prefix when it was constructed, still has
    the empty prefix, and shows the location in full. *)
Theorem learned_prefix_is_not_stripped :
  Options.baseUrl (options Examples.learning) = Some "https://example.com" /\
  baseUrl (this Examples.learning) = "" /\
  map location (messages (this Examples.learning)) =
    ["https://example.com/app.js:10:5"].
Proof. repeat split. Qed.

(* ================================================================== *)
(** ** Rendering *)
(* ================================================================== *)

Section RenderingProperties.

Context (host : Host).

Lemma timely_later (ms : list Message) (i j : nat) :
  monotone host -> (i <= j)%nat ->
  Forall (fun m => time m <= clock host i) ms ->
  Forall (fun m => time m <= clock host j) ms.
Proof.
  intros Hmono Hij H. eapply Forall_impl; [exact H|].
  simpl. intros m Hm. specialize (Hmono i j Hij). lia.
Qed.

Lemma timely_push (w : World) (m : Message) :
  monotone host -> timely host w -> time m = clock host (S (reads w)) ->
  ascending (messages (this w) ++ [m]) /\
  Forall (fun x => time x <= clock host (S (S (reads w)))) (messages (this w) ++ [m]).
Proof.
  intros Hmono [Hasc Hle] Hm. split.
  - apply ascending_snoc; [exact Hasc|]. rewrite Hm.
    apply (timely_later _ (reads w)); auto.
  - apply Forall_app; split.
    + apply (timely_later _ (reads w)); auto.
    + constructor; [|constructor]. rewrite Hm. apply Hmono. lia.
Qed.

Lemma perform_timely (c : Call) (w : World) :
  monotone host -> timely host w -> timely host (perform host c w).
Proof.
  intros Hmono Hw. pose proof Hw as [Hasc Hle]. unfold timely.
  call_cases c w; rewrite ?tally_messages;
    try (now apply timely_push);
    try (split; [exact Hasc | exact Hle]).
  - rewrite (sort_by_time_ascending _ Hasc). split; [exact Hasc|].
    apply (timely_later _ (reads w)); auto.
  - split; [exact Hasc|]. apply (timely_later _ (reads w)); auto.
Qed.

Lemma session_timely (opts : Options.t) (cs : list Call) :
  monotone host -> timely host (session host cs (attachConsoleCapture host opts)).
Proof.
  intros Hmono. apply session_invariant.
  - split; [exact I | constructor].
  - intros; now apply perform_timely.
Qed.

Lemma set_messages_same (c : ConsoleCapture) : set_messages (messages c) c = c.
Proof. now destruct c. Qed.

(** C6, as the code has it.  Rendering changes neither tally nor the set
    of reported URLs, and it keeps the stored records, each as it was; but
    it sorts the stored sequence in place, stably by capture time.  In a
    session whose clock never runs backwards the records are stored in that
    order already, and the instance is after rendering exactly what it was
    before. *)
Theorem getOutput_stored_state (opts : Options.t) (cs : list Call)
    (title : option string) :
  let w := session host cs (attachConsoleCapture host opts) in
  let w' := exec (getOutput host title) w in
  errors (this w') = errors (this w) /\
  warnings (this w') = warnings (this w) /\
  reportedErrors (this w') = reportedErrors (this w) /\
  messages (this w') = sort_by_time (messages (this w)) /\
  Permutation (messages (this w')) (messages (this w)) /\
  (monotone host -> this w' = this w).
Proof.
  intros w w'. subst w'. rewrite getOutput_exec. simpl.
  repeat split; [apply sort_by_time_perm|].
  intros Hmono. destruct (session_timely opts cs Hmono) as [Hasc _].
  fold w in Hasc. rewrite (sort_by_time_ascending _ Hasc).
  apply set_messages_same.
Qed.

End RenderingProperties.

(** A clock that advances by 40 ms from reading to reading: the report is
    asked for after three events, and the instance is left as it was. *)
Lemma getOutput_stored_state_witness :
  monotone (ticking_host 0 40) /\
  this (exec (getOutput (ticking_host 0 40) None)
          (session (ticking_host 0 40) Examples.three_calls
             (attachConsoleCapture (ticking_host 0 40) Options.empty))) =
  this (session (ticking_host 0 40) Examples.three_calls
          (attachConsoleCapture (ticking_host 0 40) Options.empty)).
Proof.
  assert (Hmono : monotone (ticking_host 0 40)).
  { intros i j Hij. unfold ticking_host, clock. lia. }
  split; [exact Hmono|].
  pose proof (getOutput_stored_state (ticking_host 0 40) Options.empty
                Examples.three_calls None) as H.
  cbv zeta in H. destruct H as (_ & _ & _ & _ & _ & H).
  exact (H Hmono).
Defined.

(** C6 as stated fails: when the clock is set back between two events,
    rendering reorders the stored records. *)
Lemma getOutput_reorders_records :
  map text (messages (this Examples.set_back)) = ["first"; "second"] /\
  map text (messages (this (exec (getOutput Examples.set_back_host None)
                              Examples.set_back))) = ["second"; "first"] /\
  messages (this (exec (getOutput Examples.set_back_host None) Examples.set_back))
  <> messages (this Examples.set_back).
Proof.
  split; [vm_compute; reflexivity|]. split; [vm_compute; reflexivity|].
  intros H. apply (f_equal (map text)) in H. vm_compute in H. discriminate H.
Qed.

(* ================================================================== *)
(** ** Timestamps *)
(* ================================================================== *)

Section Digits.





Lemma show_nat_nonempty (n : nat) : (1 <= String.length (JS.show_nat n))%nat.
Proof.
  unfold JS.show_nat, NilZero.string_of_uint.
  destruct (Nat.to_uint n); simpl; lia.
Qed.






Lemma length_padStart (width : nat) (c : ascii) (s : string) :
  (width <= String.length (JS.padStart width c s))%nat.
Proof. unfold JS.padStart. rewrite length_app_s, length_repeat. lia. Qed.

End Digits.

Section TimestampProperties.

Context (host : Host).


End TimestampProperties.

(* ================================================================== *)
(** ** Rendering twice *)
(* ================================================================== *)

Section Twice.

(** Two texts that differ in one place pass the test [same_but_for]. *)
Lemma same_but_for_complete (e1 e2 out1 out2 : string) :
  (exists pre post, out1 = pre +:+ e1 +:+ post /\ out2 = pre +:+ e2 +:+ post) ->
  same_but_for e1 e2 out1 out2 = true.
Proof.
  intros (pre & post & -> & ->). unfold same_but_for.
  apply existsb_exists. exists (String.length pre). split.
  - apply in_seq. rewrite length_app_s. lia.
  - rewrite !take_app, String.eqb_refl, !drop_app, !prefix_app. simpl.
    rewrite <- !drop_drop, !drop_app. apply String.eqb_refl.
Qed.

Context (host : Host).

(** C9, as the code has it.  Two reports asked for one after the other are
    the same text but for two places, which both carry the clock reading of
    their call: the elapsed seconds in the header and the date and time of
    the footer.  If the two calls read the same times, the reports are
    identical.  The counts that [getSummary] returns are the same before the
    first call, between the two and after the second. *)
Theorem getOutput_twice (w : World) (title : option string) :
  let out1 := result (getOutput host title) w in
  let w1 := exec (getOutput host title) w in
  let out2 := result (getOutput host title) w1 in
  let w2 := exec (getOutput host title) w1 in
  let counts := fun x => (Summary.messages (result (getSummary host) x),
                          Summary.errors (result (getSummary host) x),
                          Summary.warnings (result (getSummary host) x)) in
  (exists pre mid,
     out1 = pre +:+ elapsed_text 1 (clock host (reads w)) (startTime (this w)) +:+
            mid +:+ report_footer host (clock host (S (reads w))) /\
     out2 = pre +:+ elapsed_text 1 (clock host (S (S (reads w)))) (startTime (this w)) +:+
            mid +:+ report_footer host (clock host (S (S (S (reads w)))))) /\
  (clock host (S (S (reads w))) = clock host (reads w) ->
   clock host (S (S (S (reads w)))) = clock host (S (reads w)) ->
   out2 = out1) /\
  counts w1 = counts w /\ counts w2 = counts w.
Proof.
  intros out1 w1 out2 w2 counts.
  assert (E1 : out1 =
    report_head (default_title title) (this w)
      (elapsed_text 1 (clock host (reads w)) (startTime (this w))) +:+
    report_counts (this w) +:+
    render_messages (sort_by_time (messages (this w))) +:+
    report_tallies (this w) +:+
    report_footer host (clock host (S (reads w)))).
  { apply getOutput_result. }
  assert (E2 : out2 =
    report_head (default_title title) (this w)
      (elapsed_text 1 (clock host (S (S (reads w)))) (startTime (this w))) +:+
    report_counts (this w) +:+
    render_messages (sort_by_time (messages (this w))) +:+
    report_tallies (this w) +:+
    report_footer host (clock host (S (S (S (reads w)))))).
  { unfold out2, w1. rewrite getOutput_result, getOutput_exec. simpl.
    rewrite sort_by_time_idem.
    unfold report_counts. simpl. now rewrite sort_by_time_length. }
  split; [|split; [|split]].
  - exists ("# " +:+ default_title title +:+ NL +:+ "# Started: " +:+
            JS.replace "T" " " (JS.slice 0 19 (JS.toISOString (startTime (this w)))) +:+
            " | Elapsed: "),
           ("s" +:+ NL +:+ report_counts (this w) +:+
            render_messages (sort_by_time (messages (this w))) +:+
            report_tallies (this w)).
    rewrite E1, E2. unfold report_head. rewrite !app_assoc_s. split; reflexivity.
  - intros H1 H2. rewrite E1, E2, H1, H2. reflexivity.
  - unfold counts, w1. rewrite !getSummary_result, getOutput_exec. simpl.
    now rewrite sort_by_time_length.
  - unfold counts, w2, w1. rewrite !getSummary_result, !getOutput_exec. simpl.
    now rewrite !sort_by_time_length.
Qed.

End Twice.

(** A frozen clock: the second report is the first. *)
Lemma getOutput_twice_witness :
  result (getOutput (ticking_host 5000 0) None)
    (exec (getOutput (ticking_host 5000 0) None)
       (attachConsoleCapture (ticking_host 5000 0) Options.empty)) =
  result (getOutput (ticking_host 5000 0) None)
    (attachConsoleCapture (ticking_host 5000 0) Options.empty).
Proof.
  pose proof (getOutput_twice (ticking_host 5000 0)
                (attachConsoleCapture (ticking_host 5000 0) Options.empty) None) as H.
  cbv zeta in H. destruct H as (_ & H & _).
  apply H; reflexivity.
Defined.

(** C9 as stated fails: a minute after the first report, the second one
    differs from it in the footer too (12:00am, then 12:01am), so the two
    are not the same text around their elapsed-time fields 1.0 and 61.0. *)
Lemma getOutput_twice_footer_differs :
  elapsed_text 1 1000 0 = "1.0" /\
  elapsed_text 1 61000 0 = "61.0" /\
  ~ exists pre post,
      Examples.first_report = pre +:+ "1.0" +:+ post /\
      Examples.second_report = pre +:+ "61.0" +:+ post.
Proof.
  split; [vm_compute; reflexivity|]. split; [vm_compute; reflexivity|].
  intros H. apply same_but_for_complete in H.
  vm_compute in H. discriminate H.
Qed.
(* ================================================================== *)
(** ** Further properties of the listeners *)
(* ================================================================== *)

Section MoreListenerProperties.

Context (host : Host).

(** X1.  Every uncaught exception is recorded: whatever the world, the
    [pageerror] listener appends exactly one ERROR record whose text is
    "Uncaught: " followed by the message and whose location comes from the
    stack (from the message when the stack is absent or empty), adds one to
    [errors], and leaves [warnings] and the set of reported URLs alone.  The
    same exception delivered twice is recorded twice. *)
Theorem pageerror_recorded (w : World) (stack : option string) (message : string) :
  let w' := deliver host (PageError stack message) w in
  let subject := match stack with
                 | Some s => if JS.nonempty s then s else message
                 | None => message
                 end in
  (exists m,
     messages (this w') = messages (this w) ++ [m] /\
     level m = ERROR /\
     text m = "Uncaught: " +:+ message /\
     location m = match match_frame subject with
                  | Some (f, l, c) => _formatLocation (this w) (Some f) (Str l) (Str c)
                  | None => ""
                  end) /\
  errors (this w') = S (errors (this w)) /\
  warnings (this w') = warnings (this w) /\
  reportedErrors (this w') = reportedErrors (this w) /\
  length (messages (this (deliver host (PageError stack message) w'))) =
  S (S (length (messages (this w)))).
Proof.
  intros w' subject. subst w'. unfold deliver, dispatch.
  rewrite !on_pageerror_exec, !logMessage_exec. simpl.
  split.
  - eexists. repeat split.
  - repeat split. rewrite !length_app. simpl. lia.
Qed.

(** X13.  The two ways of shortening a URL agree up to one character: with
    a prefix set, the location the [response] listener shows is the file
    part [_formatLocation] would show, except that it keeps a leading [/]. *)
Theorem displayUrl_keeps_separator (c : ConsoleCapture) (url : string) :
  url <> "" -> baseUrl c <> "" ->
  _formatLocation c (Some url) Undefined Undefined =
  JS.strip_leading_slash (displayUrl c url).
Proof.
  intros Hu Hb. rewrite (formatLocation_file c url Hu). unfold displayUrl.
  apply nonempty_true in Hb. now rewrite Hb.
Qed.

End MoreListenerProperties.

Lemma displayUrl_keeps_separator_witness :
  displayUrl (this Examples.with_prefix) "https://example.com/a.js" = "/a.js" /\
  _formatLocation (this Examples.with_prefix) (Some "https://example.com/a.js")
    Undefined Undefined = "a.js".
Proof.
  split; [reflexivity|].
  rewrite (displayUrl_keeps_separator (this Examples.with_prefix)
             "https://example.com/a.js" ltac:(discriminate) ltac:(discriminate)).
  reflexivity.
Defined.

(* ================================================================== *)
(** ** Further properties of sessions *)
(* ================================================================== *)

Section MoreSessionProperties.

Context (host : Host).

Lemma count_calls_snoc (p : Call -> bool) (cs : list Call) (c : Call) :
  count_calls p (cs ++ [c]) = (count_calls p cs + if p c then 1 else 0)%nat.
Proof.
  unfold count_calls. rewrite List.filter_app, length_app. simpl.
  now destruct (p c).
Qed.

Lemma size_add_new (u : string) (s : gset string) :
  u ∉ s -> size ({[u]} ∪ s) = S (size s).
Proof.
  intros H. rewrite size_union by set_solver. now rewrite size_singleton.
Qed.

(** X2.  What the counters count.  In every world a session reaches, the
    number of stored records is the number of console events plus the
    number of uncaught exceptions plus the number of distinct URLs that
    failed; [errors] is the number of console events tagged as errors plus
    the uncaught exceptions plus the distinct failed URLs; [warnings] is the
    number of console events tagged as warnings. *)
Theorem counters_count_events (opts : Options.t) (cs : list Call) :
  let w := session host cs (attachConsoleCapture host opts) in
  length (messages (this w)) =
    (count_calls is_console cs + count_calls is_pageerror cs +
     size (reportedErrors (this w)))%nat /\
  errors (this w) =
    (count_calls (is_console_of ERROR) cs + count_calls is_pageerror cs +
     size (reportedErrors (this w)))%nat /\
  warnings (this w) = count_calls (is_console_of WARN) cs.
Proof.
  induction cs as [|c cs IH] using rev_ind; [repeat split|].
  cbv zeta in *. rewrite session_snoc, !count_calls_snoc.
  set (w := session host cs (attachConsoleCapture host opts)) in *.
  destruct IH as (Hm & He & Hw).
  call_cases c w;
    rewrite ?tally_messages, ?tally_errors, ?tally_warnings, ?tally_reportedErrors,
      ?length_app, ?sort_by_time_length; simpl;
    try (repeat split; lia).
  apply bool_decide_eq_false in Hseen.
  rewrite (size_add_new _ _ Hseen). repeat split; lia.
Qed.

Lemma tally_startTime (lv : Level) (c : ConsoleCapture) :
  startTime (tally lv c) = startTime c.
Proof. now destruct lv. Qed.

Lemma tally_autoLog (lv : Level) (c : ConsoleCapture) :
  autoLog (tally lv c) = autoLog c.
Proof. now destruct lv. Qed.

Lemma tally_verbose (lv : Level) (c : ConsoleCapture) :
  verbose (tally lv c) = verbose c.
Proof. now destruct lv. Qed.

(** A call either prints nothing and keeps the records (sorted, when it is
    [getOutput]), or it stores one new record and, with [autoLog], prints
    its line. *)
Lemma perform_effect (c : Call) (w : World) :
  (stdout (perform host c w) = stdout w /\
   (messages (this (perform host c w)) = messages (this w) \/
    messages (this (perform host c w)) = sort_by_time (messages (this w)))) \/
  (exists lv loc txt,
     messages (this (perform host c w)) =
       messages (this w) ++ [new_message host w lv loc txt] /\
     stdout (perform host c w) =
       stdout w ++ if autoLog (this w)
                   then [stream_line (new_message host w lv loc txt)] else []).
Proof.
  call_cases c w; rewrite ?tally_messages, ?tally_autoLog; simpl;
    try (left; split; [reflexivity | auto]).
  - right. eexists _, _, _.
    unfold new_message; simpl. rewrite tally_startTime. split; reflexivity.
  - right. eexists ERROR, _, _. split; reflexivity.
  - right. eexists ERROR, _, _. split; reflexivity.
Qed.

Lemma perform_autoLog (c : Call) (w : World) :
  autoLog (this (perform host c w)) = autoLog (this w) /\
  verbose (this (perform host c w)) = verbose (this w).
Proof.
  call_cases c w; rewrite ?tally_autoLog, ?tally_verbose; split; reflexivity.
Qed.

Lemma session_autoLog (cs : list Call) (w : World) :
  autoLog (this (session host cs w)) = autoLog (this w) /\
  verbose (this (session host cs w)) = verbose (this w).
Proof.
  revert w; induction cs as [|c cs IH]; intros w; simpl; [split; reflexivity|].
  destruct (IH (perform host c w)) as [-> ->]. apply perform_autoLog.
Qed.

(** X3.  What is printed while capturing.  With [autoLog] off nothing is
    ever printed by the listeners or the queries.  With [autoLog] on and a
    clock that never runs backwards, the output is the banner followed by
    one line per stored record, in the order of the records. *)
Theorem streamed_lines (opts : Options.t) (cs : list Call) :
  let w := session host cs (attachConsoleCapture host opts) in
  (autoLog (this w) = false -> stdout w = []) /\
  (autoLog (this w) = true -> monotone host ->
   stdout w = banner (this w) :: map stream_line (messages (this w))).
Proof.
  intros w. subst w.
  set (w0 := attachConsoleCapture host opts).
  destruct (session_autoLog cs w0) as [Ha Hv].
  unfold banner. rewrite Ha, Hv. clear Ha Hv. split.
  - intros Hoff.
    enough (H : autoLog (this (session host cs w0)) = false /\
                stdout (session host cs w0) = []) by apply H.
    apply session_invariant.
    + split; [exact Hoff|]. unfold w0, attachConsoleCapture, construct in *.
      simpl in *. now rewrite Hoff.
    + intros x c [Hx Hout]. split; [now rewrite (proj1 (perform_autoLog c x))|].
      destruct (perform_effect c x) as [[-> _] | (lv & loc & txt & _ & ->)];
        [exact Hout | now rewrite Hx, Hout].
  - intros Hon Hmono.
    enough (H : (autoLog (this (session host cs w0)) = true /\
                 timely host (session host cs w0)) /\
                stdout (session host cs w0) =
                stdout w0 ++ map stream_line (messages (this (session host cs w0)))).
    { destruct H as [_ ->]. unfold w0, attachConsoleCapture, construct in *.
      simpl in *. now rewrite Hon. }
    apply session_invariant.
    + repeat split; [exact Hon | constructor | now rewrite app_nil_r].
    + intros x c [[Hx Ht] Hout].
      split; [split; [now rewrite (proj1 (perform_autoLog c x))
                     | now apply perform_timely]|].
      destruct (perform_effect c x) as [[-> [-> | ->]] | (lv & loc & txt & -> & ->)].
      * exact Hout.
      * destruct Ht as [Hasc _]. now rewrite (sort_by_time_ascending _ Hasc).
      * rewrite Hx, Hout, map_app, <- app_assoc. reflexivity.
Qed.

End MoreSessionProperties.

Lemma streamed_lines_witness :
  stdout (session (ticking_host 0 40) Examples.three_calls
            (attachConsoleCapture (ticking_host 0 40) Options.empty)) =
  banner (this (session (ticking_host 0 40) Examples.three_calls
                  (attachConsoleCapture (ticking_host 0 40) Options.empty))) ::
  map stream_line
    (messages (this (session (ticking_host 0 40) Examples.three_calls
                       (attachConsoleCapture (ticking_host 0 40) Options.empty)))).
Proof.
  assert (Hmono : monotone (ticking_host 0 40)).
  { intros i j Hij. unfold ticking_host, clock. lia. }
  pose proof (streamed_lines (ticking_host 0 40) Options.empty Examples.three_calls) as H.
  cbv zeta in H. destruct H as [_ H].
  exact (H eq_refl Hmono).
Defined.

(* ================================================================== *)
(** ** The caller's options object *)
(* ================================================================== *)

Section OptionsProperties.

Context (host : Host).

Lemma perform_options_other (c : Call) (w : World) :
  (forall m u, c <> Emit (FrameNavigated m u)) ->
  options (perform host c w) = options w /\
  onceFramenavigated (perform host c w) = onceFramenavigated w.
Proof.
  intros Hc. call_cases c w; try (split; reflexivity);
    exfalso; eapply Hc; reflexivity.
Qed.

Lemma session_options_spent (cs : list Call) (w : World) :
  onceFramenavigated w = false -> options (session host cs w) = options w.
Proof.
  revert w; induction cs as [|c cs IH]; intros w Hw; simpl; [reflexivity|].
  assert (H : options (perform host c w) = options w /\
              onceFramenavigated (perform host c w) = false).
  { destruct c as [[type url l co txt | stack message | url status statusText | m u]
                  | title |];
      try (match goal with
           | |- context [perform host ?c w] =>
               destruct (perform_options_other c w ltac:(discriminate)) as [-> ->]
           end; split; [reflexivity | exact Hw]).
    unfold perform. rewrite (framenavigated_spent host m u w Hw).
    split; [reflexivity | exact Hw]. }
  destruct H as [Ho Hf]. now rewrite (IH _ Hf).
Qed.

(** X4.  The [options] object of the caller is written at most once, and
    only the first navigation event can do it: it does when no prefix was
    supplied, the event is for the main frame, its URL starts with "http"
    and parses, and then [baseUrl] becomes protocol, two slashes and host.
    Whatever comes later, further navigations included, leaves the object
    as it is; so a first navigation of a subframe means that nothing is
    learned at all. *)
Theorem options_written_once (opts : Options.t) (cs : list Call) :
  options (session host cs (attachConsoleCapture host opts)) =
  match first_navigation cs with
  | Some (isMainFrame, url) =>
      if prefix_missing opts && isMainFrame && JS.nonempty url &&
         JS.startsWith "http" url
      then match parseURL host url with
           | Some (protocol, hostname) =>
               Options.set_baseUrl (protocol +:+ "//" +:+ hostname) opts
           | None => opts
           end
      else opts
  | None => opts
  end.
Proof.
  set (w0 := attachConsoleCapture host opts).
  assert (Ho : options w0 = opts) by reflexivity.
  assert (Hl : onceFramenavigated w0 = prefix_missing opts) by reflexivity.
  clearbody w0. revert w0 Ho Hl.
  induction cs as [|c cs IH]; intros w0 Ho Hl; simpl; [exact Ho|].
  destruct c as [[type url l co txt | stack message | url status statusText | m u]
                | title |];
    try (match goal with
         | |- context [perform host ?c w0] =>
             destruct (perform_options_other c w0 ltac:(discriminate)) as [Ho' Hl']
         end; apply IH; [now rewrite Ho' | now rewrite Hl']).
  rewrite session_options_spent by apply framenavigated_once.
  unfold perform, deliver, dispatch, on_framenavigated, exec.
  rewrite Hl. destruct (prefix_missing opts); simpl; [|exact Ho].
  destruct (m && JS.nonempty u && JS.startsWith "http" u); [|exact Ho].
  destruct (parseURL host u) as [[p h]|]; simpl; now rewrite ?Ho.
Qed.

End OptionsProperties.

(* ================================================================== *)
(** ** The stack-frame pattern *)
(* ================================================================== *)

Section FramePattern.

Lemma span_digits_split (s : string) :
  s = fst (span_digits s) +:+ snd (span_digits s) /\
  JS.all_digits (fst (span_digits s)) = true.
Proof.
  induction s as [|c s [IH1 IH2]]; simpl; [split; reflexivity|].
  destruct (JS.is_digit c) eqn:E; [|split; reflexivity].
  destruct (span_digits s) as [d r]; simpl in *.
  split; [now rewrite <- IH1 | now rewrite E].
Qed.

Lemma span_digits_app (d rest : string) :
  JS.all_digits d = true ->
  span_digits (d +:+ rest) = (d +:+ fst (span_digits rest), snd (span_digits rest)).
Proof.
  induction d as [|c d IH]; simpl; intros H.
  - now destruct (span_digits rest).
  - apply andb_true_iff in H as [Hc Hd]. rewrite Hc, (IH Hd). reflexivity.
Qed.

Lemma match_line_col_sound (s l c : string) :
  match_line_col s = Some (l, c) ->
  exists post,
    s = ":" +:+ l +:+ ":" +:+ c +:+ post /\
    l <> "" /\ JS.all_digits l = true /\ c <> "" /\ JS.all_digits c = true.
Proof.
  unfold match_line_col.
  destruct s as [|a r]; [discriminate|].
  destruct (Ascii.eqb_spec a ":") as [-> | Hne].
  2:{ destruct a as [[] [] [] [] [] [] [] []]; try discriminate. now elim Hne. }
  destruct (span_digits_split r) as [Hr Hl].
  destruct (span_digits r) as [l' r1]; simpl in *.
  destruct (JS.nonempty l') eqn:El; [|discriminate].
  destruct r1 as [|b r2]; [discriminate|].
  destruct (Ascii.eqb_spec b ":") as [-> | Hne].
  2:{ destruct b as [[] [] [] [] [] [] [] []]; try discriminate. now elim Hne. }
  destruct (span_digits_split r2) as [Hr2 Hc].
  destruct (span_digits r2) as [c' r3]; simpl in *.
  destruct (JS.nonempty c') eqn:Ec; [|discriminate].
  intros [= <- <-]. exists r3.
  apply nonempty_true in El, Ec.
  repeat split; auto.
  rewrite Hr at 1. simpl. rewrite Hr2 at 1. reflexivity.
Qed.

Lemma match_line_col_complete (l c post : string) :
  l <> "" -> JS.all_digits l = true -> c <> "" -> JS.all_digits c = true ->
  exists c', match_line_col (":" +:+ l +:+ ":" +:+ c +:+ post) = Some (l, c').
Proof.
  intros Hl Hld Hc Hcd. unfold match_line_col. simpl.
  rewrite (span_digits_app l _ Hld). simpl.
  rewrite app_empty_r. apply nonempty_true in Hl. rewrite Hl.
  rewrite (span_digits_app c _ Hcd).
  assert (Hn : JS.nonempty (c +:+ fst (span_digits post)) = true).
  { destruct c; [now elim Hc | reflexivity]. }
  rewrite Hn. eauto.
Qed.

Lemma prefix_cons (a c : ascii) (p s : string) :
  String.prefix (String a p) (String c s) = Ascii.eqb a c && String.prefix p s.
Proof.
  simpl. destruct (ascii_dec a c) as [-> | Hne].
  - now rewrite Ascii.eqb_refl.
  - apply Ascii.eqb_neq in Hne. now rewrite Hne.
Qed.

Lemma prefix_cons_nil (a : ascii) (p : string) : String.prefix (String a p) "" = false.
Proof. reflexivity. Qed.

Lemma prefix_nil (s : string) : String.prefix "" s = true.
Proof. now destruct s. Qed.

(** Inside a first group, what follows the group does not make a line
    terminator. *)
Lemma at_line_terminator_inside (b rest : string) :
  b <> "" -> at_line_terminator (b +:+ ":" +:+ rest) = at_line_terminator b.
Proof.
  intros Hb. unfold at_line_terminator, of_bytes. cbn [fold_right].
  destruct b as [|c1 [|c2 [|c3 b]]]; [now elim Hb | | |];
    cbn [String.append];
    rewrite ?prefix_cons, ?prefix_cons_nil, ?prefix_nil;
    repeat match goal with
           | |- context [Ascii.eqb ?a ?c] => is_var c; destruct (Ascii.eqb a c)
           end; reflexivity.
Qed.

Lemma match_lazy_sound (s f l c : string) :
  match_lazy s = Some (f, l, c) ->
  exists post,
    s = f +:+ ":" +:+ l +:+ ":" +:+ c +:+ post /\
    one_line f = true /\
    l <> "" /\ JS.all_digits l = true /\ c <> "" /\ JS.all_digits c = true.
Proof.
  revert f; induction s as [|ch r IH]; intros f; cbn [match_lazy].
  - discriminate.
  - destruct (match_line_col (String ch r)) as [[l0 c0]|] eqn:E.
    + cbn beta iota. intros [= <- <- <-].
      destruct (match_line_col_sound _ _ _ E) as (post & H).
      exists post. simpl. tauto.
    + destruct (at_line_terminator (String ch r)) eqn:Et; [discriminate|].
      destruct (match_lazy r) as [[[f' l'] c']|] eqn:Er; [|discriminate].
      cbn beta iota. intros [= <- <- <-].
      destruct (IH f' eq_refl) as (post & Hs & Hf & Hrest).
      exists post. split; [now rewrite Hs at 1|]. split; [|exact Hrest].
      change (one_line (String ch f')) with
        (negb (at_line_terminator (String ch f')) && one_line f').
      rewrite Hf, andb_true_r.
      rewrite <- (at_line_terminator_inside (String ch f') (l' +:+ ":" +:+ c' +:+ post))
        by discriminate.
      change (String ch f' +:+ ":" +:+ l' +:+ ":" +:+ c' +:+ post) with
        (String ch (f' +:+ ":" +:+ l' +:+ ":" +:+ c' +:+ post)).
      rewrite <- Hs, Et. reflexivity.
Qed.

Lemma match_lazy_complete (f l c post : string) :
  one_line f = true ->
  l <> "" -> JS.all_digits l = true -> c <> "" -> JS.all_digits c = true ->
  match_lazy (f +:+ ":" +:+ l +:+ ":" +:+ c +:+ post) <> None.
Proof.
  intros Hf Hl Hld Hc Hcd. induction f as [|ch f IH].
  - destruct (match_line_col_complete l c post Hl Hld Hc Hcd) as [c' E].
    cbn [String.append match_lazy] in *. rewrite E. discriminate.
  - change (one_line (String ch f)) with
      (negb (at_line_terminator (String ch f)) && one_line f) in Hf.
    apply andb_true_iff in Hf as [Ht Hf]. apply negb_true_iff in Ht.
    change (String ch f +:+ ":" +:+ l +:+ ":" +:+ c +:+ post) with
      (String ch (f +:+ ":" +:+ l +:+ ":" +:+ c +:+ post)).
    cbn [match_lazy].
    destruct (match_line_col _) as [[l0 c0]|]; [discriminate|].
    change (String ch (f +:+ ":" +:+ l +:+ ":" +:+ c +:+ post)) with
      (String ch f +:+ ":" +:+ l +:+ ":" +:+ c +:+ post).
    rewrite at_line_terminator_inside by discriminate. rewrite Ht.
    destruct (match_lazy _) as [[[f' l'] c']|]; [discriminate|].
    now apply IH.
Qed.

(** The groups of a match, in the subject. *)
Lemma match_frame_groups (s f l c : string) :
  match_frame s = Some (f, l, c) ->
  exists pre post,
    s = pre +:+ "at " +:+ f +:+ ":" +:+ l +:+ ":" +:+ c +:+ post /\
    one_line f = true /\
    l <> "" /\ JS.all_digits l = true /\ c <> "" /\ JS.all_digits c = true.
Proof.
  induction s as [|ch r IH]; [discriminate|].
  change (match_frame (String ch r)) with
    (if String.prefix "at " (String ch r)
     then match match_lazy (JS.drop 3 (String ch r)) with
          | Some m => Some m
          | None => match_frame r
          end
     else match_frame r).
  assert (Hrec : match_frame r = Some (f, l, c) ->
                 exists pre post,
                   String ch r = pre +:+ "at " +:+ f +:+ ":" +:+ l +:+ ":" +:+ c +:+ post /\
                   one_line f = true /\
                   l <> "" /\ JS.all_digits l = true /\ c <> "" /\ JS.all_digits c = true).
  { intros H. destruct (IH H) as (pre & post & -> & Hrest).
    exists (String ch pre), post. split; [reflexivity | exact Hrest]. }
  destruct (String.prefix "at " (String ch r)) eqn:Ep; [|exact Hrec].
  destruct (match_lazy (JS.drop 3 (String ch r))) as [[[f' l'] c']|] eqn:El;
    [|exact Hrec].
  intros [= -> -> ->].
  destruct (match_lazy_sound _ _ _ _ El) as (post & Hs & Hrest).
  exists "", post. split; [|exact Hrest].
  pose proof (prefix_split _ _ Ep) as Hp.
  change (String.length "at ") with 3%nat in Hp. rewrite Hs in Hp. exact Hp.
Qed.

(** X5.  When the pattern [/at (.*?):(\d+):(\d+)/] matches, the subject
    really holds "at ", the first group, a colon, the second group, a
    colon and the third group in a row; the first group stays on one line
    and the other two are non-empty runs of digits. *)
Theorem match_frame_sound (s f l c : string) :
  match_frame s = Some (f, l, c) ->
  exists pre post,
    s = pre +:+ "at " +:+ f +:+ ":" +:+ l +:+ ":" +:+ c +:+ post /\
    one_line f = true /\
    l <> "" /\ JS.all_digits l = true /\ c <> "" /\ JS.all_digits c = true.
Proof. apply match_frame_groups. Qed.

(** X14.  The location of an uncaught exception is read off the first
    frame: the frame's file, shortened like any location, then the line and
    the column exactly as the stack spells them (leading zeros and a column
    0 included).  Only a line number of zeros leaves the file alone, and an
    empty file gives no location at all. *)
Theorem pageerror_location_from_frame (c : ConsoleCapture) (stack : option string)
    (message f l co : string) :
  match_frame match stack with
              | Some s => if JS.nonempty s then s else message
              | None => message
              end = Some (f, l, co) ->
  frame_location c stack message =
  if JS.nonempty f then
    _formatLocation c (Some f) Undefined Undefined +:+
    (if has_nonzero_digit l then ":" +:+ l +:+ ":" +:+ co else "")
  else "".
Proof.
  intros H. unfold frame_location. rewrite H.
  destruct (match_frame_groups _ _ _ _ H) as (pre & post & _ & _ & _ & Hl & Hc & _).
  destruct (JS.nonempty f) eqn:Ef.
  - apply nonempty_true in Ef. rewrite (formatLocation_suffix c f (Str l) (Str co) Ef).
    apply nonempty_true in Hc. simpl. now rewrite Hl, Hc.
  - apply nonempty_false in Ef. now subst f.
Qed.

(** X6.  And the pattern misses no frame: a subject that holds "at ", a
    one-line text, a colon, digits, a colon and digits is matched (by the
    leftmost such place), so the record of such an exception gets a
    location from it. *)
Theorem match_frame_complete (pre f l c post : string) :
  one_line f = true ->
  l <> "" -> JS.all_digits l = true -> c <> "" -> JS.all_digits c = true ->
  match_frame (pre +:+ "at " +:+ f +:+ ":" +:+ l +:+ ":" +:+ c +:+ post) <> None.
Proof.
  intros Hf Hl Hld Hc Hcd.
  pose proof (match_lazy_complete f l c post Hf Hl Hld Hc Hcd) as Hlazy.
  induction pre as [|ch pre IH].
  - set (x := f +:+ ":" +:+ l +:+ ":" +:+ c +:+ post) in *.
    change ("" +:+ "at " +:+ x) with (String "a" (String "t" (String " " x))).
    cbn [match_frame].
    change (String.prefix "at " (String "a" (String "t" (String " " x)))) with
      (String.prefix "at " ("at " +:+ x)).
    rewrite prefix_app. cbn [JS.drop]. destruct (match_lazy x); [discriminate | now elim Hlazy].
  - change (String ch pre +:+ "at " +:+ f +:+ ":" +:+ l +:+ ":" +:+ c +:+ post) with
      (String ch (pre +:+ "at " +:+ f +:+ ":" +:+ l +:+ ":" +:+ c +:+ post)).
    set (r := pre +:+ "at " +:+ f +:+ ":" +:+ l +:+ ":" +:+ c +:+ post) in *.
    change (match_frame (String ch r)) with
      (if String.prefix "at " (String ch r)
       then match match_lazy (JS.drop 3 (String ch r)) with
            | Some m => Some m
            | None => match_frame r
            end
       else match_frame r).
    destruct (String.prefix "at " (String ch r)); [|exact IH].
    destruct (match_lazy (JS.drop 3 (String ch r))); [discriminate | exact IH].
Qed.

End FramePattern.

Lemma match_frame_sound_witness :
  exists pre post,
    MoreExamples.chrome_stack =
    pre +:+ "at " +:+ "https://example.com/app.js" +:+ ":" +:+ "10" +:+ ":" +:+ "5" +:+ post.
Proof.
  destruct (match_frame_sound MoreExamples.chrome_stack
              "https://example.com/app.js" "10" "5" eq_refl)
    as (pre & post & H & _).
  exists pre, post. exact H.
Defined.

Lemma match_frame_complete_witness :
  match_frame ("TypeError: f is not a function at " +:+ "at " +:+ "render (app.js" +:+
               ":" +:+ "7" +:+ ":" +:+ "21" +:+ ")") <> None.
Proof.
  apply (match_frame_complete "TypeError: f is not a function at " "render (app.js"
           "7" "21" ")"); [reflexivity | discriminate | reflexivity | discriminate
                           | reflexivity].
Defined.

Lemma pageerror_location_from_frame_witness :
  frame_location (this Examples.with_prefix) (Some MoreExamples.chrome_stack)
    "x is not defined" = "app.js:10:5".
Proof.
  rewrite (pageerror_location_from_frame (this Examples.with_prefix)
             (Some MoreExamples.chrome_stack) "x is not defined"
             "https://example.com/app.js" "10" "5" eq_refl).
  reflexivity.
Defined.

(* ================================================================== *)
(** ** The order of the report *)
(* ================================================================== *)

Section ReportOrder.

Lemma captured_at_insert (t : Z) (m : Message) (l : list Message) :
  captured_at t (insert_by_time m l) = captured_at t (m :: l).
Proof.
  unfold captured_at. induction l as [|x r IH]; simpl; [reflexivity|].
  destruct (time m <=? time x) eqn:E; simpl; [reflexivity|].
  apply Z.leb_gt in E. rewrite IH. simpl.
  destruct (time m =? t) eqn:Em, (time x =? t) eqn:Ex; try reflexivity.
  apply Z.eqb_eq in Em, Ex. lia.
Qed.

Lemma captured_at_sort (t : Z) (l : list Message) :
  captured_at t (sort_by_time l) = captured_at t l.
Proof.
  induction l as [|m r IH]; simpl; [reflexivity|].
  rewrite captured_at_insert. unfold captured_at in *. simpl. now rewrite IH.
Qed.

Lemma render_messages_from (acc : string) (ms : list Message) :
  fold_left (fun out msg => out +:+ render_message msg) ms acc =
  acc +:+ fold_right (fun msg out => render_message msg +:+ out) "" ms.
Proof.
  revert acc; induction ms as [|m r IH]; intros acc; simpl.
  - now rewrite app_empty_r.
  - rewrite IH. now rewrite app_assoc_s.
Qed.

Context (host : Host).

(** X7.  The report lists every stored record once, one line per record,
    in ascending order of capture time; records captured at the same
    instant keep the order in which they arrived. *)
Theorem getOutput_lists_by_time (w : World) (title : option string) :
  let listed := sort_by_time (messages (this w)) in
  (exists before after,
     result (getOutput host title) w =
     before +:+ fold_right (fun m out => render_message m +:+ out) "" listed +:+ after) /\
  Permutation listed (messages (this w)) /\
  ascending listed /\
  forall t, captured_at t listed = captured_at t (messages (this w)).
Proof.
  intros listed. split; [|split; [|split]].
  - rewrite getOutput_result.
    exists (report_head (default_title title) (this w)
              (elapsed_text 1 (clock host (reads w)) (startTime (this w))) +:+
            report_counts (this w)),
           (report_tallies (this w) +:+ report_footer host (clock host (S (reads w)))).
    unfold render_messages. rewrite render_messages_from.
    change ("" +:+ ?x) with x. now rewrite app_assoc_s.
  - apply sort_by_time_perm.
  - apply sort_by_time_sorted.
  - intros t. apply captured_at_sort.
Qed.

End ReportOrder.

(* ================================================================== *)
(** ** Saving and printing the report *)
(* ================================================================== *)

Section SavingProperties.

Context (host : Host) (node : Node).

(** The path [saveOutput] writes to when its date is [t]. *)
Lemma saveOutput_unfold (title : option string) (w : World) (d : Disk) :
  let outputDir := path_join node (cwd node) "test-results" in
  let filepath := path_join node outputDir
                    (filePrefix (this w) +:+ "-" +:+ file_stamp (clock host (reads w)) +:+
                     ".txt") in
  let w1 := exec (Date_now host) w in
  let report := result (getOutput host
                          (Some match title with Some t => t | None => "console-capture" end))
                       w1 in
  saveOutput host node title w d =
  (filepath,
   exec (console_log (glyph_saved +:+ " Console logs saved to: " +:+ filepath))
        (exec (getOutput host (Some match title with Some t => t | None => "console-capture" end)) w1),
   writeFileSync filepath report (mkdirSync outputDir d)).
Proof. reflexivity. Qed.

(** X8.  [saveOutput] makes the directory [test-results] under the working
    directory and writes one file there, named after the prefix and the
    date of the call; the file holds the report as rendered during this
    call (under the title "console-capture" when none is given); every
    other file is as it was.  The path is returned and is printed in one
    line, with [autoLog] off as well.  Tallies and reported URLs are
    untouched. *)
Theorem saveOutput_writes_report (title : option string) (w : World) (d : Disk) :
  let outputDir := path_join node (cwd node) "test-results" in
  let filepath := path_join node outputDir
                    (filePrefix (this w) +:+ "-" +:+ file_stamp (clock host (reads w)) +:+
                     ".txt") in
  let report := result (getOutput host
                          (Some match title with Some t => t | None => "console-capture" end))
                       (exec (Date_now host) w) in
  let saved := saveOutput host node title w d in
  let w' := snd (fst saved) in
  let d' := snd saved in
  fst (fst saved) = filepath /\
  files d' !! filepath = Some report /\
  (forall other, other <> filepath -> files d' !! other = files d !! other) /\
  dirs d' = {[outputDir]} ∪ dirs d /\
  stdout w' = stdout w ++ [glyph_saved +:+ " Console logs saved to: " +:+ filepath] /\
  errors (this w') = errors (this w) /\
  warnings (this w') = warnings (this w) /\
  reportedErrors (this w') = reportedErrors (this w) /\
  Permutation (messages (this w')) (messages (this w)).
Proof.
  intros outputDir filepath report saved w' d'. subst saved w' d'.
  rewrite saveOutput_unfold.
  fold outputDir. fold filepath. fold report. cbn [fst snd].
  split; [reflexivity|]. split; [apply lookup_insert_eq|].
  split; [intros other Hne; simpl; now apply lookup_insert_ne|].
  split; [reflexivity|]. split; [reflexivity|].
  repeat split. simpl. apply sort_by_time_perm.
Qed.

End SavingProperties.

Section FileStamp.

Lemma map_chars_app (f : ascii -> ascii) (a b : string) :
  JS.map_chars f (a +:+ b) = JS.map_chars f a +:+ JS.map_chars f b.
Proof. induction a as [|c a IH]; simpl; congruence. Qed.

Lemma length_map_chars (f : ascii -> ascii) (s : string) :
  String.length (JS.map_chars f s) = String.length s.
Proof. induction s as [|c s IH]; simpl; congruence. Qed.

Lemma take_app_le (n : nat) (a b : string) :
  (n <= String.length a)%nat -> JS.take n (a +:+ b) = JS.take n a.
Proof.
  revert a; induction n as [|n IH]; intros [|c a] H; simpl in *;
    try reflexivity; [exfalso; lia|].
  rewrite IH by lia. reflexivity.
Qed.

Lemma toISOString_split (t : Z) :
  JS.toISOString t =
  iso_to_seconds t +:+ "." +:+ JS.digits 3 (t mod 86400000 mod 1000) +:+ "Z".
Proof.
  unfold JS.toISOString, iso_to_seconds.
  destruct (JS.civil_from_days (t / 86400000)) as [[y m] d].
  now rewrite !app_assoc_s.
Qed.

Lemma length_digits (width : nat) (n : Z) :
  (width <= String.length (JS.digits width n))%nat.
Proof. apply length_padStart. Qed.

Lemma length_show_year (y : Z) : (4 <= String.length (JS.show_year y))%nat.
Proof.
  unfold JS.show_year. destruct ((0 <=? y) && (y <=? 9999)).
  - apply length_digits.
  - rewrite length_app_s. pose proof (length_digits 6 (Z.abs y)). lia.
Qed.

Lemma length_iso_to_seconds (t : Z) : (19 <= String.length (iso_to_seconds t))%nat.
Proof.
  unfold iso_to_seconds.
  destruct (JS.civil_from_days (t / 86400000)) as [[y m] d].
  rewrite !length_app_s. simpl String.length.
  pose proof (length_show_year y).
  pose proof (length_digits 2 m). pose proof (length_digits 2 d).
  pose proof (length_digits 2 (t mod 86400000 / 3600000)).
  pose proof (length_digits 2 (t mod 86400000 / 60000 mod 60)).
  pose proof (length_digits 2 (t mod 86400000 / 1000 mod 60)).
  lia.
Qed.

Lemma mod_mul_div (t a b : Z) : 0 < a -> 0 < b -> t mod (a * b) / a = (t / a) mod b.
Proof.
  intros Ha Hb. rewrite Z.rem_mul_r by lia.
  rewrite (Z.mul_comm a), Z.div_add by lia.
  rewrite Z.div_small by (apply Z.mod_pos_bound; lia). lia.
Qed.

(** Up to the seconds, the ISO text only depends on the second. *)
Lemma iso_to_seconds_second (t1 t2 : Z) :
  t1 / 1000 = t2 / 1000 -> iso_to_seconds t1 = iso_to_seconds t2.
Proof.
  intros H. unfold iso_to_seconds.
  assert (Hday : forall t, t / 86400000 = t / 1000 / 86400).
  { intros t. rewrite Z.div_div by lia. reflexivity. }
  assert (Hh : forall t, t mod 86400000 / 3600000 = t / 1000 / 3600 mod 24).
  { intros t. change 86400000 with (3600000 * 24). rewrite mod_mul_div by lia.
    change 3600000 with (1000 * 3600). now rewrite <- Z.div_div by lia. }
  assert (Hm : forall t, t mod 86400000 / 60000 = t / 1000 / 60 mod 1440).
  { intros t. change 86400000 with (60000 * 1440). rewrite mod_mul_div by lia.
    change 60000 with (1000 * 60). now rewrite <- Z.div_div by lia. }
  assert (Hs : forall t, t mod 86400000 / 1000 = t / 1000 mod 86400).
  { intros t. change 86400000 with (1000 * 86400). now rewrite mod_mul_div by lia. }
  rewrite !Hday, !Hh, !Hm, !Hs, H. reflexivity.
Qed.

(** The stamp in the file name has the resolution of a second. *)
Lemma file_stamp_second (t1 t2 : Z) :
  t1 / 1000 = t2 / 1000 -> file_stamp t1 = file_stamp t2.
Proof.
  intros H. unfold file_stamp, JS.slice, dash_colons_and_dots. simpl JS.drop.
  rewrite !toISOString_split, !map_chars_app.
  rewrite !take_app_le
    by (rewrite length_map_chars; simpl; apply length_iso_to_seconds).
  now rewrite (iso_to_seconds_second t1 t2 H).
Qed.

End FileStamp.

Section SavingTwice.

Context (host : Host) (node : Node).

Lemma perform_filePrefix (c : Call) (w : World) :
  filePrefix (this (perform host c w)) = filePrefix (this w) /\
  saveToFile (this (perform host c w)) = saveToFile (this w).
Proof.
  call_cases c w; try (split; reflexivity);
    match goal with
    | |- context [level_of_tag ?t] => destruct (level_of_tag t)
    end; split; reflexivity.
Qed.

Lemma session_filePrefix (cs : list Call) (w : World) :
  filePrefix (this (session host cs w)) = filePrefix (this w).
Proof.
  revert w; induction cs as [|c cs IH]; intros w; simpl; [reflexivity|].
  rewrite IH. apply perform_filePrefix.
Qed.

(** X9.  The file name has the resolution of a second.  When the report is
    saved twice and both calls take their date within the same second,
    whatever the session did in between, the second call writes to the path
    of the first: the file then holds the second report and the first one
    is gone. *)
Theorem saveOutput_same_second (title1 title2 : option string) (cs : list Call)
    (w : World) (d : Disk) :
  let first := saveOutput host node title1 w d in
  let w1 := session host cs (snd (fst first)) in
  let second := saveOutput host node title2 w1 (snd first) in
  clock host (reads w) / 1000 = clock host (reads w1) / 1000 ->
  fst (fst second) = fst (fst first) /\
  files (snd second) !! fst (fst first) =
    Some (result (getOutput host
                    (Some match title2 with Some t => t | None => "console-capture" end))
                 (exec (Date_now host) w1)).
Proof.
  cbv zeta. rewrite (saveOutput_unfold host node title1 w d). cbv zeta. cbn [fst snd].
  set (w1 := session host cs _).
  rewrite (saveOutput_unfold host node title2 w1 _). cbv zeta. cbn [fst snd].
  intros Hsec.
  assert (Hp : filePrefix (this w1) = filePrefix (this w)).
  { unfold w1. rewrite session_filePrefix. reflexivity. }
  rewrite Hp, <- (file_stamp_second _ _ Hsec).
  split; [reflexivity | apply lookup_insert_eq].
Qed.

Lemma printSummary_unfold (title : option string) (w : World) (d : Disk) :
  let report := result (getOutput host title) w in
  let w3 := exec (console_log (JS.repeat "=" 80 +:+ NL))
              (exec (console_log report)
                 (exec (console_log (NL +:+ JS.repeat "=" 80))
                    (exec (getOutput host title) w))) in
  printSummary host node title w d =
  if saveToFile (this w)
  then (snd (fst (saveOutput host node title w3 d)), snd (saveOutput host node title w3 d))
  else (w3, d).
Proof.
  cbv zeta. unfold printSummary.
  change (getOutput host title w) with
    (result (getOutput host title) w, exec (getOutput host title) w).
  cbv beta iota. unfold console_log at 1 2 3. cbv beta iota.
  change (saveToFile (this _)) with (saveToFile (this w)).
  destruct (saveToFile (this w)); [|reflexivity].
  rewrite (saveOutput_unfold host node title). reflexivity.
Qed.

(** X10.  [printSummary] prints the report between two rules of eighty
    [=], with [autoLog] off as well.  Without [saveToFile] the disk is left
    alone.  With [saveToFile] the report is rendered a second time for the
    file, from later clock readings, and with the default title of
    [saveOutput] when no title is given: the printed report is then headed
    "Browser Console Log Capture" and the saved one "console-capture". *)
Theorem printSummary_prints_and_saves (title : option string) (w : World) (d : Disk) :
  let printed := result (getOutput host title) w in
  let path := path_join node (path_join node (cwd node) "test-results")
                (filePrefix (this w) +:+ "-" +:+
                 file_stamp (clock host (S (S (reads w)))) +:+ ".txt") in
  let saved_title := match title with Some t => t | None => "console-capture" end in
  let w' := fst (printSummary host node title w d) in
  let d' := snd (printSummary host node title w d) in
  (exists rest,
     stdout w' = stdout w ++ [NL +:+ JS.repeat "=" 80; printed; JS.repeat "=" 80 +:+ NL] ++ rest /\
     (saveToFile (this w) = false -> rest = []) /\
     (saveToFile (this w) = true ->
      rest = [glyph_saved +:+ " Console logs saved to: " +:+ path])) /\
  (exists body, printed = "# " +:+ default_title title +:+ NL +:+ body) /\
  (saveToFile (this w) = false -> d' = d) /\
  (saveToFile (this w) = true ->
   exists body,
     files d' !! path = Some ("# " +:+ saved_title +:+ NL +:+ body)).
Proof.
  cbv zeta. rewrite printSummary_unfold. cbv zeta.
  set (printed := result (getOutput host title) w).
  set (w3 := exec (console_log (JS.repeat "=" 80 +:+ NL)) _).
  assert (Hout : stdout w3 =
                 stdout w ++ [NL +:+ JS.repeat "=" 80; printed; JS.repeat "=" 80 +:+ NL]).
  { transitivity (((stdout w ++ [NL +:+ JS.repeat "=" 80]) ++ [printed]) ++
                  [JS.repeat "=" 80 +:+ NL]); [reflexivity|].
    now rewrite <- !app_assoc. }
  assert (Hhead : forall t x, exists body,
             result (getOutput host t) x = "# " +:+ default_title t +:+ NL +:+ body).
  { intros t x. rewrite getOutput_result. unfold report_head.
    eexists. rewrite !app_assoc_s. reflexivity. }
  destruct (saveToFile (this w)) eqn:Esave.
  - rewrite (saveOutput_unfold host node title w3 d). cbv zeta. cbn [fst snd].
    assert (Hr : reads w3 = S (S (reads w))) by reflexivity.
    assert (Hp : filePrefix (this w3) = filePrefix (this w)) by reflexivity.
    rewrite Hr, Hp.
    split; [|split; [apply Hhead|split; [discriminate|]]].
    + eexists. split; [|split; [discriminate | reflexivity]].
      match goal with
      | |- stdout (exec (console_log ?line) _) = _ =>
          transitivity (stdout w3 ++ [line]); [reflexivity|]
      end.
      rewrite Hout. now rewrite <- app_assoc.
    + intros _.
      destruct (Hhead (Some match title with Some t => t | None => "console-capture" end)
                  (exec (Date_now host) w3)) as [body Hb].
      exists body. cbn [files writeFileSync]. rewrite lookup_insert_eq.
      now rewrite Hb.
  - cbn [fst snd].
    split; [|split; [apply Hhead|split; [reflexivity | discriminate]]].
    exists []. rewrite app_nil_r. split; [exact Hout|]. split; [reflexivity | discriminate].
Qed.

End SavingTwice.

(** Two saves 30 ms apart go to the same file. *)
Lemma saveOutput_same_second_witness :
  fst (fst (saveOutput (ticking_host 0 10) MoreExamples.posix_node None
              (snd (fst (saveOutput (ticking_host 0 10) MoreExamples.posix_node None
                           MoreExamples.saving (Build_Disk ∅ ∅))))
              (snd (saveOutput (ticking_host 0 10) MoreExamples.posix_node None
                      MoreExamples.saving (Build_Disk ∅ ∅))))) =
  fst (fst (saveOutput (ticking_host 0 10) MoreExamples.posix_node None
              MoreExamples.saving (Build_Disk ∅ ∅))).
Proof.
  pose proof (saveOutput_same_second (ticking_host 0 10) MoreExamples.posix_node
                None None [] MoreExamples.saving (Build_Disk ∅ ∅)) as H.
  cbv zeta in H. exact (proj1 (H eq_refl)).
Defined.

(** An instance with [saveToFile]: the file is headed "console-capture". *)
Lemma printSummary_prints_and_saves_witness :
  exists body,
    files (snd (printSummary (ticking_host 0 10) MoreExamples.posix_node None
                  MoreExamples.saving (Build_Disk ∅ ∅)))
    !! "/work/test-results/console-capture-1970-01-01T00-00-00.txt" =
    Some ("# " +:+ "console-capture" +:+ NL +:+ body).
Proof.
  pose proof (printSummary_prints_and_saves (ticking_host 0 10) MoreExamples.posix_node
                None MoreExamples.saving (Build_Disk ∅ ∅)) as H.
  cbv zeta in H. destruct H as (_ & _ & _ & H).
  exact (H eq_refl).
Defined.

(* ================================================================== *)
(** ** How exact the printed times are *)
(* ================================================================== *)

Section Rounding.

(** The double nearest to [n / d] is within half a unit of its last place. *)
Lemma round_pos_near (n d : Z) :
  0 < n -> 0 < d -> Z.log2 n - Z.log2 d - 52 < 0 ->
  let x := JS.round_pos n d in
  JS.expo x < 0 /\
  JS.expo x <= Z.log2 n - Z.log2 d - 52 /\
  0 <= JS.mant x /\
  Z.abs (2 * (JS.mant x * d - n * 2 ^ (- JS.expo x))) <= d.
Proof.
  intros Hn Hd He. unfold JS.round_pos.
  set (e0 := Z.log2 n - Z.log2 d - 53).
  destruct (JS.scaled n d e0) as [n0 d0].
  set (e := if n0 / d0 <? 2 ^ 53 then e0 else e0 + 1).
  assert (Hlt : e < 0) by (unfold e; destruct (n0 / d0 <? 2 ^ 53); lia).
  assert (Hle : e <= Z.log2 n - Z.log2 d - 52)
    by (unfold e; destruct (n0 / d0 <? 2 ^ 53); lia).
  unfold JS.scaled. apply Z.ltb_lt in Hlt as Hlt'. rewrite Hlt'.
  set (num := n * 2 ^ (- e)).
  assert (Hnum : 0 <= num) by (unfold num; apply Z.mul_nonneg_nonneg; [lia | apply Z.pow_nonneg; lia]).
  pose proof (Z.div_mod num d ltac:(lia)) as Hdm.
  pose proof (Z.mod_pos_bound num d Hd) as Hr.
  assert (Hq : 0 <= num / d) by (apply Z.div_pos; lia).
  cbn [JS.mant JS.expo].
  repeat split; try assumption.
  - destruct (2 * (num mod d) <? d); [lia|].
    destruct (d <? 2 * (num mod d)); [lia|].
    destruct (Z.even (num / d)); lia.
  - destruct (2 * (num mod d) <? d) eqn:E1.
    + apply Z.ltb_lt in E1. fold num. nia.
    + apply Z.ltb_ge in E1. destruct (d <? 2 * (num mod d)) eqn:E2.
      * apply Z.ltb_lt in E2. fold num. nia.
      * apply Z.ltb_ge in E2. fold num.
        destruct (Z.even (num / d)); nia.
Qed.

(** [toFixed] picks a nearest multiple of the last printed place. *)
Lemma fixed_point_near (f : nat) (x : JS.double) :
  JS.expo x < 0 ->
  let big := 2 ^ (- JS.expo x) in
  0 <= JS.fixed_point f x /\
  Z.abs (2 * (JS.fixed_point f x * big - Z.abs (JS.mant x) * 10 ^ Z.of_nat f)) <= big.
Proof.
  intros He big. unfold JS.fixed_point.
  apply Z.leb_gt in He as He'. rewrite He'. fold big.
  set (p := Z.abs (JS.mant x) * 10 ^ Z.of_nat f).
  assert (Hbig : 0 < big) by (apply Z.pow_pos_nonneg; lia).
  assert (Hp : 0 <= p) by (unfold p; apply Z.mul_nonneg_nonneg; [lia | apply Z.pow_nonneg; lia]).
  pose proof (Z.div_mod p big ltac:(lia)) as Hdm.
  pose proof (Z.mod_pos_bound p big Hbig) as Hr.
  assert (Hq : 0 <= p / big) by (apply Z.div_pos; lia).
  destruct (big <=? 2 * (p mod big)) eqn:E.
  - apply Z.leb_le in E. split; [lia | nia].
  - apply Z.leb_gt in E. split; [lia | nia].
Qed.

(** Milliseconds divided by 1000 and printed with [f] decimals: the
    printed number, in units of [unit] ms, is within half a unit of the
    milliseconds. *)
Lemma fixed_point_of_ms (f : nat) (unit ms : Z) :
  0 < ms < 2 ^ 53 -> 0 < unit -> Z.even unit = true -> unit * 10 ^ Z.of_nat f = 1000 ->
  let n := JS.fixed_point f (JS.fdiv ms 1000) in
  0 <= n /\ Z.abs (unit * n - ms) <= unit / 2.
Proof.
  intros Hms Hu Heven Hunit n. subst n. unfold JS.fdiv.
  assert (E0 : (ms =? 0) = false) by (apply Z.eqb_neq; lia).
  assert (E1 : (0 <? ms) = true) by (apply Z.ltb_lt; lia).
  rewrite E0, E1.
  assert (Hlog : Z.log2 ms < 53) by (apply Z.log2_lt_pow2; lia).
  assert (Hlog1000 : Z.log2 1000 = 9) by reflexivity.
  destruct (round_pos_near ms 1000 ltac:(lia) ltac:(lia) ltac:(lia))
    as (He & Hle & Hm & Hnear).
  set (x := JS.round_pos ms 1000) in *.
  destruct (fixed_point_near f x He) as (Hn & Hfix).
  set (n := JS.fixed_point f x) in *.
  set (big := 2 ^ (- JS.expo x)) in *.
  assert (Hbig : 512 <= big).
  { unfold big. change 512 with (2 ^ 9). apply Z.pow_le_mono_r; lia. }
  rewrite (Z.abs_eq (JS.mant x)) in Hfix by lia.
  split; [exact Hn|].
  apply Z.even_spec in Heven as [half Hhalf].
  replace (unit / 2) with half by (subst unit; now rewrite Z.mul_comm, Z.div_mul by lia).
  set (m := JS.mant x) in *. set (tenf := 10 ^ Z.of_nat f) in *.
  assert (H2 : Z.abs (2 * (unit * n * big - 1000 * m)) <= unit * big).
  { replace (2 * (unit * n * big - 1000 * m)) with (unit * (2 * (n * big - m * tenf)))
      by (rewrite <- Hunit; ring).
    rewrite Z.abs_mul, (Z.abs_eq unit) by lia. nia. }
  assert (H3 : Z.abs (2 * (unit * n - ms)) * big <= unit * big + 1000).
  { replace (Z.abs (2 * (unit * n - ms)) * big)
      with (Z.abs (2 * (unit * n * big - 1000 * m) + 2 * (m * 1000 - ms * big))).
    - lia.
    - rewrite <- (Z.abs_eq big) at 3 by lia. rewrite <- Z.abs_mul. f_equal. ring. }
  assert (H4 : Z.abs (2 * (unit * n - ms)) < unit + 2) by nia.
  lia.
Qed.

Context (host : Host).

(** X11.  The printed times are the true ones, rounded.  For an elapsed
    time of less than 2^53 ms, the hundredths of a second in a record's
    timestamp are within half a hundredth (5 ms) of the milliseconds that
    elapsed, and the tenths that [getOutput] and [getSummary] report are
    within half a tenth (50 ms); neither is negative. *)
Theorem elapsed_text_rounds (start now : Z) :
  0 <= now - start < 2 ^ 53 ->
  let hundredths := JS.fixed_point 2 (JS.fdiv (now - start) 1000) in
  let tenths := JS.fixed_point 1 (JS.fdiv (now - start) 1000) in
  elapsed_text 2 now start = JS.place_point 2 hundredths /\
  elapsed_text 1 now start = JS.place_point 1 tenths /\
  0 <= hundredths /\ Z.abs (10 * hundredths - (now - start)) <= 5 /\
  0 <= tenths /\ Z.abs (100 * tenths - (now - start)) <= 50.
Proof.
  intros Hms. cbv zeta. set (ms := now - start) in *.
  assert (Hsign : (JS.mant (JS.fdiv ms 1000) <? 0) = false).
  { unfold JS.fdiv. destruct (ms =? 0) eqn:E0; [reflexivity|].
    apply Z.eqb_neq in E0.
    assert (E1 : (0 <? ms) = true) by (apply Z.ltb_lt; lia). rewrite E1.
    assert (Hlog : Z.log2 ms < 53) by (apply Z.log2_lt_pow2; lia).
    assert (Hlog1000 : Z.log2 1000 = 9) by reflexivity.
    apply Z.ltb_ge.
    apply (round_pos_near ms 1000 ltac:(lia) ltac:(lia) ltac:(lia)). }
  unfold elapsed_text, JS.toFixed. fold ms. rewrite Hsign.
  split; [reflexivity|]. split; [reflexivity|].
  destruct (Z.eq_dec ms 0) as [-> | Hpos].
  - vm_compute. repeat split; discriminate.
  - destruct (fixed_point_of_ms 2 10 ms ltac:(lia) ltac:(lia) eq_refl eq_refl) as [H1 H2].
    destruct (fixed_point_of_ms 1 100 ms ltac:(lia) ltac:(lia) eq_refl eq_refl) as [H3 H4].
    change (10 / 2) with 5 in H2. change (100 / 2) with 50 in H4. auto.
Qed.

End Rounding.

(** 12 345 ms after the start: 12.35 s in the timestamp, 12.3 s elapsed. *)
Lemma elapsed_text_rounds_witness :
  0 <= 12345 - 0 < 2 ^ 53 /\
  elapsed_text 2 12345 0 = "12.35" /\
  Z.abs (10 * JS.fixed_point 2 (JS.fdiv (12345 - 0) 1000) - (12345 - 0)) <= 5.
Proof.
  assert (H : 0 <= 12345 - 0 < 2 ^ 53) by (split; [discriminate | reflexivity]).
  split; [exact H|]. split; [vm_compute; reflexivity|].
  exact (proj1 (proj2 (proj2 (proj2 (elapsed_text_rounds 0 12345 H))))).
Defined.
